(** * wErase: the edit modal and the application shell, embedded and verified

    The development follows the React components of the repository:

    - [EditModal] (src/components/EditModal.tsx): the per-image edit
      configuration (background, effect, one intensity per effect kind) and
      the rendering pipeline [applyChanges] that paints a background, draws
      the segmented foreground and runs one pixel effect over the result;
    - [App] (App.tsx): the image collection, the model switch handler
      [handleModelChange], the ingestion path [onDrop] with the surfaces
      that lead into it (paste, sample image, camera capture) and the mount
      effect with its mobile redirect;
    - [Images] (the grid with its tiles and the saved edits) and [Camera]
      (start, stop, switch and capture).

    JavaScript numbers are IEEE 754 binary64 values; they are modelled by
    Rocq's primitive floats, which are the same format with the same
    round-to-nearest-even arithmetic.  The pixel buffer of a canvas
    ([ImageData.data]) is a [Uint8ClampedArray]: a store converts the number
    with the ECMAScript operation ToUint8Clamp, modelled here exactly.

    The browser itself (image decoding, the 2D canvas raster operations, data
    URL export) is not code of the repository; it is an interface, [Browser],
    over which the components are written. *)

From Stdlib Require Import ZArith List Lia Bool String Ascii.
From Stdlib Require Import Floats.PrimFloat Floats.SpecFloat Floats.FloatOps.
From Stdlib Require Import Numbers.Cyclic.Int63.Uint63.
From Stdlib Require Import DecimalString.
Import ListNotations.
Open Scope Z_scope.

(* ================================================================== *)
(** * JavaScript numbers and typed arrays *)
(* ================================================================== *)

Module JsNumber.

(** A JS number that holds an integer [z] with |z| < 2^53 (every integer the
    components compute with is far below that bound). *)
Definition ofZ (z : Z) : float :=
  if z <? 0 then PrimFloat.opp (PrimFloat.of_uint63 (Uint63.of_Z (- z)))
  else PrimFloat.of_uint63 (Uint63.of_Z z).

(** Nearest integer to the rational [n / d] (for [0 < d]), ties to even. *)
Definition roundHalfEven (n d : Z) : Z :=
  let f := n / d in
  match Z.compare (2 * (n mod d)) d with
  | Lt => f
  | Gt => f + 1
  | Eq => if Z.even f then f else f + 1
  end.

(** Nearest integer to [m / 2^k], ties to even: the integer part is [m]
    shifted right by [k] bits, the fraction is its low [k] bits. *)
Definition roundDyadic (m k : positive) : Z :=
  let f := Z.shiftr (Zpos m) (Zpos k) in
  let r := Z.land (Zpos m) (Z.ones (Zpos k)) in
  match Z.compare (2 * r) (Z.shiftl 1 (Zpos k)) with
  | Lt => f
  | Gt => f + 1
  | Eq => if Z.even f then f else f + 1
  end.

(** ECMAScript ToUint8Clamp: NaN becomes 0, the number is clamped to
    [0, 255] and rounded to the nearest integer, ties to even.  A finite
    binary64 value is [m * 2^e] for a positive mantissa [m]. *)
Definition ToUint8Clamp (x : float) : Z :=
  match Prim2SF x with
  | S754_nan => 0
  | S754_zero _ => 0
  | S754_infinity s => if s then 0 else 255
  | S754_finite true _ _ => 0
  | S754_finite false m e =>
      match e with
      | Zneg k =>
          if 255 <=? Z.shiftr (Zpos m) (Zpos k) then 255 else roundDyadic m k
      | _ => if 255 <=? Zpos m * 2 ^ e then 255 else Zpos m * 2 ^ e
      end
  end.

(** [Math.min] on two numbers: NaN is contagious, and -0 is below +0. *)
Definition Math_min (a b : float) : float :=
  if PrimFloat.is_nan a || PrimFloat.is_nan b then PrimFloat.nan
  else if PrimFloat.ltb a b then a
  else if PrimFloat.ltb b a then b
  else if PrimFloat.get_sign a then a else b.

(** ** [Uint8ClampedArray]

    The array is a list of integers in [0, 255].  Reading past the end
    yields [undefined], which arithmetic turns into NaN; writing past the
    end is ignored; a write in range stores [ToUint8Clamp] of the number. *)
Definition Uint8ClampedArray := list Z.

Definition getIndex (data : Uint8ClampedArray) (i : nat) : float :=
  match nth_error data i with
  | Some c => ofZ c
  | None => PrimFloat.nan
  end.

Fixpoint setIndex (data : Uint8ClampedArray) (i : nat) (x : float) : Uint8ClampedArray :=
  match data, i with
  | [], _ => []
  | _ :: rest, O => ToUint8Clamp x :: rest
  | c :: rest, S j => c :: setIndex rest j x
  end.

(** [for (let i = start; i < data.length; i += 4) body(i)].  Each turn
    advances [i] by four, so [length data] turns of fuel are never used up. *)
Fixpoint forStride4 (fuel : nat) (i : nat)
  (body : nat -> Uint8ClampedArray -> Uint8ClampedArray)
  (data : Uint8ClampedArray) : Uint8ClampedArray :=
  match fuel with
  | O => data
  | S fuel' =>
      if (i <? List.length data)%nat
      then forStride4 fuel' (i + 4) body (body i data)
      else data
  end.

(** The body shared by the two loops: entries [i], [i + 1] and [i + 2] are
    replaced by [F] of their value, one store after the other. *)
Definition rgbBody (F : float -> float) (i : nat) (data : Uint8ClampedArray)
  : Uint8ClampedArray :=
  let data := setIndex data i (F (getIndex data i)) in
  let data := setIndex data (i + 1) (F (getIndex data (i + 1))) in
  setIndex data (i + 2) (F (getIndex data (i + 2))).

(** [String.prototype.includes]. *)
Fixpoint includes (s sub : string) : bool :=
  if String.prefix sub s then true
  else match s with
       | EmptyString => false
       | String _ rest => includes rest sub
       end.


(** An integer number in a template literal: its decimal digits, with a
    minus sign when negative. *)
Definition numberToString (n : Z) : string := NilZero.string_of_int (Z.to_int n).

(** Case folding of a regular expression with the [i] flag and no [u]
    flag: the ASCII letters fold onto each other; no other character folds
    onto an ASCII letter. *)
Definition foldCase (c : ascii) : ascii :=
  let n := nat_of_ascii c in
  if (65 <=? n)%nat && (n <=? 90)%nat then ascii_of_nat (n + 32) else c.

Fixpoint foldString (s : string) : string :=
  match s with
  | EmptyString => EmptyString
  | String c rest => String (foldCase c) (foldString rest)
  end.

(** [!!s.match(/word/i)] for a pattern that is a plain word. *)
Definition matchesWord (s word : string) : bool :=
  includes (foldString s) (foldString word).

End JsNumber.

(* ================================================================== *)
(** * Files and image records (App.tsx, [ImageFile]) *)
(* ================================================================== *)

(** A [File] as the components see it: a name, a MIME type and bytes. *)
Record File := mkFile {
  fileName : string;
  fileType : string;
  fileBytes : list Z
}.

(** [interface ImageFile { id: number; file: File; processedFile?: File }] *)
Record ImageFile := mkImageFile {
  id : Z;
  file : File;
  processedFile : option File
}.

(* ================================================================== *)
(** * The browser: image decoding and the 2D canvas *)
(* ================================================================== *)

(** [ctx.filter]: either ['none'] or [blur(<radius>px)]. *)
Inductive Filter :=
| FilterNone
| FilterBlur (radius : float).

(** The part of the Web platform the edit modal calls.  A [Bitmap] is a
    decoded image element, a [Surface] the output bitmap of a canvas.  The
    raster operations take the context state they depend on (fill style,
    filter) as arguments; all draw with the default source-over rule. *)
Class Browser := {
  Bitmap : Type;
  Surface : Type;
  (** Loading a file into an image element: [None] when the bytes do not
      decode, in which case the element fires [error] and never [load]. *)
  decode : File -> option Bitmap;
  imageWidth : Bitmap -> Z;
  imageHeight : Bitmap -> Z;
  (** [getContext('2d')] of the n-th canvas a render creates: [false] when
      the browser returns [null]. *)
  context2d : nat -> bool;
  (** The bitmap a canvas gets when its width or height is assigned. *)
  blank : Z -> Z -> Surface;
  (** [fillRect(x, y, w, h)] under a fill style. *)
  fillRect : string -> Z -> Z -> Z -> Z -> Surface -> Surface;
  (** [clearRect(x, y, w, h)]. *)
  clearRect : Z -> Z -> Z -> Z -> Surface -> Surface;
  (** [drawImage(image, dx, dy)]: the image at its own size. *)
  drawImage : Filter -> Bitmap -> Z -> Z -> Surface -> Surface;
  (** [drawImage(image, dx, dy, dw, dh)]: the whole image scaled to the
      destination rectangle. *)
  drawImageScaled : Filter -> Bitmap -> Z -> Z -> Z -> Z -> Surface -> Surface;
  (** [drawImage(canvas, dx, dy)] with another canvas as the source. *)
  drawCanvas : Filter -> Surface -> Z -> Z -> Surface -> Surface;
  (** [getImageData(sx, sy, sw, sh).data]. *)
  getImageData : Z -> Z -> Z -> Z -> Surface -> JsNumber.Uint8ClampedArray;
  (** [putImageData(imageData, dx, dy)] for image data of the given width
      and height. *)
  putImageData : JsNumber.Uint8ClampedArray -> Z -> Z -> Z -> Z -> Surface -> Surface;
  (** [toDataURL(type)]. *)
  toDataURL : string -> Surface -> string;
  (** A fresh canvas bitmap is transparent black. *)
  getImageData_blank : forall w h,
    0 <= w -> 0 <= h ->
    getImageData 0 0 w h (blank w h) = repeat 0 (Z.to_nat (4 * w * h))
}.

(** What awaiting a promise gives an async function: the value it settles
    with, or nothing at all when the promise never settles, in which case
    the function stays suspended at the [await] for good. *)
Inductive Run (A : Type) :=
| Done (a : A)
| Suspended.
Arguments Done {A} a.
Arguments Suspended {A}.

(* ================================================================== *)
(** * The edit modal: configuration state and pixel effects *)
(* ================================================================== *)

Module EditModal.
Import JsNumber.

Definition backgroundOptions : list (string * string) :=
  [("color", "Solid Color"); ("image", "Image")]%string.

Definition effectOptions : list (string * string) :=
  [("none", "None"); ("blur", "Blur"); ("brightness", "Bright");
   ("contrast", "Contrast")]%string.

(** The [useState] cells of the component. *)
Record State := mkState {
  bgType : string;
  bgColor : string;
  customBgImage : option File;
  selectedEffect : string;
  blurValue : Z;
  brightnessValue : Z;
  contrastValue : Z;
  exportUrl : string;
  showCustomColorPicker : bool
}.

Definition initialState : State :=
  {| bgType := "color"; bgColor := "#ffffff"; customBgImage := None;
     selectedEffect := "none"; blurValue := 50; brightnessValue := 50;
     contrastValue := 50; exportUrl := ""; showCustomColorPicker := false |}.

Definition setBgType (v : string) (s : State) : State :=
  mkState v (bgColor s) (customBgImage s) (selectedEffect s) (blurValue s)
    (brightnessValue s) (contrastValue s) (exportUrl s) (showCustomColorPicker s).

Definition setBgColor (v : string) (s : State) : State :=
  mkState (bgType s) v (customBgImage s) (selectedEffect s) (blurValue s)
    (brightnessValue s) (contrastValue s) (exportUrl s) (showCustomColorPicker s).

Definition setCustomBgImage (v : option File) (s : State) : State :=
  mkState (bgType s) (bgColor s) v (selectedEffect s) (blurValue s)
    (brightnessValue s) (contrastValue s) (exportUrl s) (showCustomColorPicker s).

Definition setSelectedEffect (v : string) (s : State) : State :=
  mkState (bgType s) (bgColor s) (customBgImage s) v (blurValue s)
    (brightnessValue s) (contrastValue s) (exportUrl s) (showCustomColorPicker s).

Definition setBlurValue (v : Z) (s : State) : State :=
  mkState (bgType s) (bgColor s) (customBgImage s) (selectedEffect s) v
    (brightnessValue s) (contrastValue s) (exportUrl s) (showCustomColorPicker s).

Definition setBrightnessValue (v : Z) (s : State) : State :=
  mkState (bgType s) (bgColor s) (customBgImage s) (selectedEffect s) (blurValue s)
    v (contrastValue s) (exportUrl s) (showCustomColorPicker s).

Definition setContrastValue (v : Z) (s : State) : State :=
  mkState (bgType s) (bgColor s) (customBgImage s) (selectedEffect s) (blurValue s)
    (brightnessValue s) v (exportUrl s) (showCustomColorPicker s).

Definition setExportUrl (v : string) (s : State) : State :=
  mkState (bgType s) (bgColor s) (customBgImage s) (selectedEffect s) (blurValue s)
    (brightnessValue s) (contrastValue s) v (showCustomColorPicker s).

(** [switch (selectedEffect)] of the two slider helpers. *)
Definition getCurrentEffectValue (s : State) : Z :=
  if (selectedEffect s =? "blur")%string then blurValue s
  else if (selectedEffect s =? "brightness")%string then brightnessValue s
  else if (selectedEffect s =? "contrast")%string then contrastValue s
  else 50.

Definition handleEffectValueChange (value : Z) (s : State) : State :=
  if (selectedEffect s =? "blur")%string then setBlurValue value s
  else if (selectedEffect s =? "brightness")%string then setBrightnessValue value s
  else if (selectedEffect s =? "contrast")%string then setContrastValue value s
  else s.

(** ** Brightness

    [data[i] = Math.min(255, data[i] * (brightnessValue / 50))], on the
    red, green and blue entries of every pixel. *)
Definition brightnessNumber (brightnessValue : Z) (c : float) : float :=
  Math_min (ofZ 255) (PrimFloat.mul c (PrimFloat.div (ofZ brightnessValue) (ofZ 50))).

Definition brightnessBody (brightnessValue : Z) (i : nat)
  (data : Uint8ClampedArray) : Uint8ClampedArray :=
  let data := setIndex data i (brightnessNumber brightnessValue (getIndex data i)) in
  let data := setIndex data (i + 1) (brightnessNumber brightnessValue (getIndex data (i + 1))) in
  setIndex data (i + 2) (brightnessNumber brightnessValue (getIndex data (i + 2))).

Definition brightness (brightnessValue : Z) (data : Uint8ClampedArray) : Uint8ClampedArray :=
  forStride4 (List.length data) 0 (brightnessBody brightnessValue) data.

(** ** Contrast

    [factor = (259 * (contrastValue + 255)) / (255 * (259 - contrastValue))],
    then [data[i] = factor * (data[i] - 128) + 128] on red, green and blue. *)
Definition contrastFactor (contrastValue : Z) : float :=
  PrimFloat.div
    (PrimFloat.mul (ofZ 259) (PrimFloat.add (ofZ contrastValue) (ofZ 255)))
    (PrimFloat.mul (ofZ 255) (PrimFloat.sub (ofZ 259) (ofZ contrastValue))).

Definition contrastNumber (factor : float) (c : float) : float :=
  PrimFloat.add (PrimFloat.mul factor (PrimFloat.sub c (ofZ 128))) (ofZ 128).

Definition contrastBody (factor : float) (i : nat)
  (data : Uint8ClampedArray) : Uint8ClampedArray :=
  let data := setIndex data i (contrastNumber factor (getIndex data i)) in
  let data := setIndex data (i + 1) (contrastNumber factor (getIndex data (i + 1))) in
  setIndex data (i + 2) (contrastNumber factor (getIndex data (i + 2))).

Definition contrast (contrastValue : Z) (data : Uint8ClampedArray) : Uint8ClampedArray :=
  let factor := contrastFactor contrastValue in
  forStride4 (List.length data) 0 (contrastBody factor) data.

(** What one channel holds after the store, as an integer. *)
Definition brightnessChannel (brightnessValue c : Z) : Z :=
  ToUint8Clamp (brightnessNumber brightnessValue (ofZ c)).

Definition contrastChannel (contrastValue c : Z) : Z :=
  ToUint8Clamp (contrastNumber (contrastFactor contrastValue) (ofZ c)).

(** ** The effects, pixel by pixel

    The same two effects as functions of one pixel at a time; the loops
    above are shown to compute them.  [f] is what happens to one colour
    entry; the fourth entry of each pixel (alpha) is passed through. *)
Fixpoint mapRGB (f : Z -> Z) (data : Uint8ClampedArray) : Uint8ClampedArray :=
  match data with
  | r :: g :: b :: a :: rest => f r :: f g :: f b :: a :: mapRGB f rest
  | [r; g; b] => [f r; f g; f b]
  | [r; g] => [f r; f g]
  | [r] => [f r]
  | [] => []
  end.

Definition clamp255 (z : Z) : Z := Z.max 0 (Z.min 255 z).

(** The contrast remap in exact arithmetic: the fraction
    [factor * (c - 128) + 128] with
    [factor = 259 * (v + 255) / (255 * (259 - v))] over the common
    denominator [255 * (259 - v)], rounded to the nearest integer and
    clamped to the channel range. *)
Definition exactContrast (v c : Z) : Z :=
  let d := 255 * (259 - v) in
  clamp255 (roundHalfEven (259 * (v + 255) * (c - 128) + 128 * d) d).

(** All integers from 0 up to [n - 1]. *)
Definition upto (n : nat) : list Z := map Z.of_nat (seq 0 n).

(** The intensities a slider can hold and the values a channel can hold. *)
Definition intensities : list Z := upto 101.
Definition channels : list Z := upto 256.

(** A check of [p] on every intensity and every channel value. *)
Definition everywhere (p : Z -> Z -> bool) : bool :=
  forallb (fun v => forallb (p v) channels) intensities.

(** The outputs of a channel function [f], one row per intensity, and the
    check that they rise along every row (with the channel value) and down
    every column (with the intensity). *)
Definition toneTable (f : Z -> Z -> Z) : list (list Z) :=
  map (fun v => map (f v) channels) intensities.

Fixpoint nondecreasing (l : list Z) : bool :=
  match l with
  | a :: rest =>
      match rest with
      | b :: _ => (a <=? b) && nondecreasing rest
      | [] => true
      end
  | [] => true
  end.

Fixpoint pointwiseLe (l1 l2 : list Z) : bool :=
  match l1, l2 with
  | a :: r1, b :: r2 => (a <=? b) && pointwiseLe r1 r2
  | _, _ => true
  end.

Fixpoint rowsRise (rows : list (list Z)) : bool :=
  match rows with
  | r1 :: rest =>
      match rest with
      | r2 :: _ => pointwiseLe r1 r2 && rowsRise rest
      | [] => true
      end
  | [] => true
  end.

Definition toneTableRises (f : Z -> Z -> Z) : bool :=
  let rows := toneTable f in
  forallb nondecreasing rows && rowsRise rows.

(** ** The canvas of a render and the async program over it *)

Section Render.
Context {B : Browser}.

(** A canvas element with its 2D context state. *)
Record Canvas := mkCanvas {
  width : Z;
  height : Z;
  surface : Surface;
  fillStyle : string;
  filter : Filter
}.

(** [document.createElement('canvas')]: 300 by 150, default context state. *)
Definition createCanvas : Canvas :=
  mkCanvas 300 150 (blank 300 150) "#000000" FilterNone.

(** An async function that works on one canvas. *)
Definition Async (A : Type) : Type := Canvas -> Run (A * Canvas).

Definition ret {A} (a : A) : Async A := fun c => Done (a, c).

Definition bind {A C} (m : Async A) (k : A -> Async C) : Async C :=
  fun c => match m c with
           | Done (a, c') => k a c'
           | Suspended => Suspended
           end.

Notation "x <- m ;; k" := (bind m (fun x => k))
  (at level 61, m at next level, right associativity).
Notation "m ;;; k" := (bind m (fun _ => k))
  (at level 61, right associativity).

Definition await {A} (p : Run A) : Async A :=
  fun c => match p with
           | Done a => Done (a, c)
           | Suspended => Suspended
           end.

Definition modify (f : Canvas -> Canvas) : Async unit := fun c => Done (tt, f c).
Definition read {A} (f : Canvas -> A) : Async A := fun c => Done (f c, c).

(** [img.src = url; await new Promise(resolve => img.onload = resolve)]:
    the promise is resolved by the [load] event only. *)
Definition loadImage (f : File) : Run Bitmap :=
  match decode f with
  | Some img => Done img
  | None => Suspended
  end.

(** Assigning [canvas.width] or [canvas.height] resets the bitmap and the
    context state. *)
Definition setWidth (w : Z) : Async unit :=
  modify (fun c => mkCanvas w (height c) (blank w (height c)) "#000000" FilterNone).

Definition setHeight (h : Z) : Async unit :=
  modify (fun c => mkCanvas (width c) h (blank (width c) h) "#000000" FilterNone).

Definition onSurface (f : Canvas -> Surface -> Surface) : Async unit :=
  modify (fun c => mkCanvas (width c) (height c) (f c (surface c)) (fillStyle c) (filter c)).

Definition setFillStyle (v : string) : Async unit :=
  modify (fun c => mkCanvas (width c) (height c) (surface c) v (filter c)).

Definition setFilter (v : Filter) : Async unit :=
  modify (fun c => mkCanvas (width c) (height c) (surface c) (fillStyle c) v).

Definition ctxFillRect (x y w h : Z) : Async unit :=
  onSurface (fun c => fillRect (fillStyle c) x y w h).

Definition ctxClearRect (x y w h : Z) : Async unit :=
  onSurface (fun _ => clearRect x y w h).

Definition ctxDrawImage (img : Bitmap) (dx dy : Z) : Async unit :=
  onSurface (fun c => drawImage (filter c) img dx dy).

Definition ctxDrawImageScaled (img : Bitmap) (dx dy dw dh : Z) : Async unit :=
  onSurface (fun c => drawImageScaled (filter c) img dx dy dw dh).

Definition ctxDrawCanvas (src : Surface) (dx dy : Z) : Async unit :=
  onSurface (fun c => drawCanvas (filter c) src dx dy).

Definition ctxGetImageData (sx sy sw sh : Z) : Async Uint8ClampedArray :=
  read (fun c => getImageData sx sy sw sh (surface c)).

Definition ctxPutImageData (data : Uint8ClampedArray) (w h dx dy : Z) : Async unit :=
  onSurface (fun _ => putImageData data w h dx dy).

(** The canvas once it has the size of the foreground image. *)
Definition sized (w h : Z) : Canvas :=
  mkCanvas w h (blank w h) "#000000" FilterNone.

(** [// Apply background] *)
Definition applyBackground (s : State) : Async unit :=
  if (bgType s =? "color")%string then
    setFillStyle (bgColor s) ;;;
    w <- read width ;; h <- read height ;;
    ctxFillRect 0 0 w h
  else if (bgType s =? "image")%string then
    match customBgImage s with
    | Some f =>
        bgImg <- await (loadImage f) ;;
        w <- read width ;; h <- read height ;;
        ctxDrawImageScaled bgImg 0 0 w h
    | None => ret tt
    end
  else ret tt.

(** [case 'blur']: the canvas is copied to a temporary canvas, cleared, and
    the copy is drawn back through the blur filter. *)
Definition applyBlur (s : State) : Async unit :=
  if negb (context2d 1) then ret tt
  else
    w <- read width ;; h <- read height ;;
    current <- read surface ;;
    let tempCanvas := drawCanvas FilterNone current 0 0 (blank w h) in
    ctxClearRect 0 0 w h ;;;
    setFilter (FilterBlur (PrimFloat.div (ofZ (blurValue s)) (ofZ 10))) ;;;
    ctxDrawCanvas tempCanvas 0 0 ;;;
    setFilter FilterNone.

(** [// Apply effects] *)
Definition applyEffects (s : State) : Async unit :=
  if (selectedEffect s =? "none")%string then ret tt
  else
    w <- read width ;; h <- read height ;;
    data <- ctxGetImageData 0 0 w h ;;
    if (selectedEffect s =? "blur")%string then applyBlur s
    else if (selectedEffect s =? "brightness")%string then
      ctxPutImageData (brightness (brightnessValue s) data) w h 0 0
    else if (selectedEffect s =? "contrast")%string then
      ctxPutImageData (contrast (contrastValue s) data) w h 0 0
    else ret tt.

(** The body of [applyChanges] once the canvas and its context exist. *)
Definition draw (s : State) (processedFile : File) : Async unit :=
  img <- await (loadImage processedFile) ;;
  setWidth (imageWidth img) ;;;
  setHeight (imageHeight img) ;;;
  applyBackground s ;;;
  ctxDrawImage img 0 0 ;;;
  applyEffects s.

(** [applyChanges]: the new component state when the function runs to its
    end (unchanged on the two early returns), [Suspended] when it never
    gets past an [await]. *)
Definition applyChanges (image : option ImageFile) (s : State) : Run State :=
  match image with
  | None => Done s
  | Some im =>
      match processedFile im with
      | None => Done s
      | Some pf =>
          if negb (context2d 0) then Done s
          else match draw s pf createCanvas with
               | Done (_, canvas) =>
                   Done (setExportUrl (toDataURL "image/png" (surface canvas)) s)
               | Suspended => Suspended
               end
      end
  end.

(** ** The effect step as one function of the composited surface

    What the selected effect makes of a [w] by [h] surface [composite]:
    the whole surface is read and written back through the pixel effect,
    or, for blur, redrawn from a copy through the blur filter.  The
    imperative [applyEffects] above is shown to compute it. *)
Definition effectOver (s : State) (w h : Z) (composite : Surface) : Surface :=
  if (selectedEffect s =? "none")%string then composite
  else if (selectedEffect s =? "blur")%string then
    if context2d 1 then
      drawCanvas (FilterBlur (PrimFloat.div (ofZ (blurValue s)) (ofZ 10)))
        (drawCanvas FilterNone composite 0 0 (blank w h)) 0 0
        (clearRect 0 0 w h composite)
    else composite
  else if (selectedEffect s =? "brightness")%string then
    putImageData (brightness (brightnessValue s) (getImageData 0 0 w h composite))
      w h 0 0 composite
  else if (selectedEffect s =? "contrast")%string then
    putImageData (contrast (contrastValue s) (getImageData 0 0 w h composite))
      w h 0 0 composite
  else composite.

(** The data URL a finished render exports for a final surface. *)
Definition exported (final : Surface) (s : State) : Run State :=
  Done (setExportUrl (toDataURL "image/png" final) s).

(** What a render leaves in [exportUrl], or [Suspended]. *)
Definition exportedUrl (r : Run State) : Run string :=
  match r with
  | Done s => Done (exportUrl s)
  | Suspended => Suspended
  end.

End Render.

(** [handleSave]: [onSave(exportUrl); onClose()], on the state of the
    parent that owns the two callbacks. *)
Definition handleSave {Parent : Type} (onSave : string -> Parent -> Parent)
  (onClose : Parent -> Parent) (s : State) (parent : Parent) : Parent :=
  onClose (onSave (exportUrl s) parent).

End EditModal.

(* ================================================================== *)
(** * The application shell: model switch and ingestion *)
(* ================================================================== *)

Module App.
Import JsNumber.

(** [interface AppError { message: string }] *)
Record AppError := mkAppError { message : string }.

(** A value thrown or rejected with: an [Error] object with its message, or
    anything else. *)
Inductive Thrown :=
| ErrorObject (msg : string)
| NotAnError.

(** How a promise of the segmentation library settles. *)
Inductive Settled (A : Type) :=
| Fulfilled (a : A)
| Rejected (e : Thrown).
Arguments Fulfilled {A} a.
Arguments Rejected {A} e.

(** [getModelInfo()] of the segmentation library. *)
Record ModelInfo := mkModelInfo {
  isWebGPUSupported : bool;
  isIOSDevice : bool
}.

(** The segmentation library (lib/process) and the clock, as the handlers
    meet them.  [DateNow n] is what the n-th call of [Date.now()] in one
    ingestion returns; [processImages n files] is how the n-th call of
    [processImages] in one ingestion settles. *)
Record Env := mkEnv {
  DateNow : nat -> Z;
  initializeModel : option string -> Settled bool;
  getModelInfo : ModelInfo;
  processImages : nat -> list File -> Settled (option (list File))
}.

(** The [useState] cells of [App], and the lines written with
    [console.error] (kept alongside so that a handler is one state
    transformer). *)
Record State := mkState {
  isLoading : bool;
  error : option AppError;
  isWebGPU : bool;
  isIOS : bool;
  currentModel : string;
  isModelSwitching : bool;
  images : list ImageFile;
  showCamera : bool;
  console : list (string * Thrown)
}.

Definition initialState : State :=
  {| isLoading := true; error := None; isWebGPU := false; isIOS := false;
     currentModel := "briaai/RMBG-1.4"; isModelSwitching := false;
     images := []; showCamera := false; console := [] |}.

Definition setIsLoading (v : bool) (s : State) : State :=
  mkState v (error s) (isWebGPU s) (isIOS s) (currentModel s)
    (isModelSwitching s) (images s) (showCamera s) (console s).

Definition setError (v : option AppError) (s : State) : State :=
  mkState (isLoading s) v (isWebGPU s) (isIOS s) (currentModel s)
    (isModelSwitching s) (images s) (showCamera s) (console s).

Definition setIsWebGPU (v : bool) (s : State) : State :=
  mkState (isLoading s) (error s) v (isIOS s) (currentModel s)
    (isModelSwitching s) (images s) (showCamera s) (console s).

Definition setIsIOS (v : bool) (s : State) : State :=
  mkState (isLoading s) (error s) (isWebGPU s) v (currentModel s)
    (isModelSwitching s) (images s) (showCamera s) (console s).

Definition setCurrentModel (v : string) (s : State) : State :=
  mkState (isLoading s) (error s) (isWebGPU s) (isIOS s) v
    (isModelSwitching s) (images s) (showCamera s) (console s).

Definition setIsModelSwitching (v : bool) (s : State) : State :=
  mkState (isLoading s) (error s) (isWebGPU s) (isIOS s) (currentModel s)
    v (images s) (showCamera s) (console s).

(** [setImages(prev => f(prev))]. *)
Definition setImages (f : list ImageFile -> list ImageFile) (s : State) : State :=
  mkState (isLoading s) (error s) (isWebGPU s) (isIOS s) (currentModel s)
    (isModelSwitching s) (f (images s)) (showCamera s) (console s).

Definition consoleError (label : string) (e : Thrown) (s : State) : State :=
  mkState (isLoading s) (error s) (isWebGPU s) (isIOS s) (currentModel s)
    (isModelSwitching s) (images s) (showCamera s) (console s ++ [(label, e)]).

(** The mount effect, on a device that is not redirected. *)
Definition mount (env : Env) (s : State) : State :=
  setIsLoading false (setIsIOS (isIOSDevice (getModelInfo env)) s).

(** ** [handleModelChange] *)

(** What the [try] block raises: nothing when the model initialised. *)
Definition switchAttempt (init : Settled bool) : option Thrown :=
  match init with
  | Fulfilled true => None
  | Fulfilled false => Some (ErrorObject "Failed to initialize new model")
  | Rejected e => Some e
  end.

Definition handleModelChange (env : Env) (newModel : string) (s : State) : State :=
  let s := setIsModelSwitching true s in
  let s := setError None s in
  let s :=
    match switchAttempt (initializeModel env (Some newModel)) with
    | None => setCurrentModel newModel s
    | Some err =>
        match err with
        | ErrorObject msg =>
            if includes msg "Falling back"
            then setCurrentModel "briaai/RMBG-1.4" s
            else setError (Some (mkAppError msg)) s
        | NotAnError => setError (Some (mkAppError "Failed to switch models")) s
        end
    end in
  setIsModelSwitching false s.

(** What the drop zone shows, by the conditional of the render function. *)
Inductive Panel :=
| Spinner (text : string)
| ErrorPanel (msg : string) (offerCrossBrowser : bool)
| Prompt.

Definition dropzonePanel (s : State) : Panel :=
  if isLoading s || isModelSwitching s then
    Spinner (if isModelSwitching s then "Switching models..."
             else "Loading background removal model...")
  else match error s with
       | Some e => ErrorPanel (message e) (currentModel s =? "Xenova/modnet")%string
       | None => Prompt
       end.

(** ** [onDrop] *)

(** [acceptedFiles.map((file, index) => ({ id: Date.now() + index, ... }))],
    from position [index] on. *)
Fixpoint newImagesFrom (env : Env) (index : nat) (acceptedFiles : list File)
  : list ImageFile :=
  match acceptedFiles with
  | [] => []
  | f :: rest =>
      mkImageFile (DateNow env index + Z.of_nat index) f None
        :: newImagesFrom env (S index) rest
  end.

Definition newImages (env : Env) (acceptedFiles : list File) : list ImageFile :=
  newImagesFrom env 0 acceptedFiles.

(** [prev.map(img => img.id === image.id ? { ...img, processedFile: r } : img)] *)
Definition attachResult (imageId : Z) (r : File) (prev : list ImageFile)
  : list ImageFile :=
  map (fun img => if id img =? imageId
                  then mkImageFile (id img) (file img) (Some r)
                  else img) prev.

(** One turn of [for (const image of newImages)]: the [n]-th call of
    [processImages], with its [try]/[catch]. *)
Definition processOne (env : Env) (n : nat) (image : ImageFile) (s : State) : State :=
  match processImages env n [file image] with
  | Fulfilled (Some (r :: _)) => setImages (attachResult (id image) r) s
  | Fulfilled _ => s
  | Rejected e => consoleError "Error processing image:" e s
  end.

Fixpoint processLoop (env : Env) (n : nat) (todo : list ImageFile) (s : State) : State :=
  match todo with
  | [] => s
  | image :: rest => processLoop env (S n) rest (processOne env n image s)
  end.

(** What the initialisation [try] block raises in [onDrop]. *)
Definition initAttempt (init : Settled bool) : option Thrown :=
  match init with
  | Fulfilled true => None
  | Fulfilled false =>
      Some (ErrorObject "Failed to initialize background removal model")
  | Rejected e => Some e
  end.

Definition onDrop (env : Env) (acceptedFiles : list File) (s : State) : State :=
  let imagesLength := List.length (images s) in
  let added := newImages env acceptedFiles in
  let s := setImages (fun prev => prev ++ added) s in
  if (imagesLength =? 0)%nat then
    let s := setIsLoading true s in
    let s := setError None s in
    match initAttempt (initializeModel env None) with
    | Some err =>
        let msg := match err with
                   | ErrorObject m => m
                   | NotAnError => "An unknown error occurred"%string
                   end in
        let s := setError (Some (mkAppError msg)) s in
        let s := setImages (fun _ => []) s in
        setIsLoading false s
    | None =>
        let s := setIsWebGPU (isWebGPUSupported (getModelInfo env)) s in
        let s := setIsLoading false s in
        processLoop env 0 added s
    end
  else processLoop env 0 added s.

(** [onDelete]: [setImages(prev => prev.filter(img => img.id !== id))]. *)
Definition onDelete (imageId : Z) (s : State) : State :=
  setImages (filter (fun img => negb (id img =? imageId))) s.

(** The updates of the image list that can reach the store between two
    suspension points: an ingestion appending its records, a segmentation
    completing for an id, a deletion. *)
Inductive StoreUpdate :=
| Appended (added : list ImageFile)
| Completed (imageId : Z) (r : File)
| Deleted (imageId : Z).

Definition applyUpdate (s : State) (u : StoreUpdate) : State :=
  match u with
  | Appended added => setImages (fun prev => prev ++ added) s
  | Completed imageId r => setImages (attachResult imageId r) s
  | Deleted imageId => onDelete imageId s
  end.


(** The ids of the store, in list order. *)
Definition ids (s : State) : list Z := map id (images s).

(** ** The ingestion loop, record by record *)

(** What one turn of the loop does to one record of the store, and what
    the rest of the loop does to it. *)
Definition recordStep (env : Env) (n : nat) (image rec : ImageFile) : ImageFile :=
  match processImages env n [file image] with
  | Fulfilled (Some (r :: _)) =>
      if id rec =? id image then mkImageFile (id rec) (file rec) (Some r) else rec
  | _ => rec
  end.

Fixpoint recordLoop (env : Env) (n : nat) (todo : list ImageFile) (rec : ImageFile)
  : ImageFile :=
  match todo with
  | [] => rec
  | image :: rest => recordLoop env (S n) rest (recordStep env n image rec)
  end.

(** The console lines the loop writes, in order. *)
Fixpoint rejections (env : Env) (n : nat) (todo : list ImageFile)
  : list (string * Thrown) :=
  match todo with
  | [] => []
  | image :: rest =>
      match processImages env n [file image] with
      | Rejected e => [("Error processing image:"%string, e)]
      | Fulfilled _ => []
      end ++ rejections env (S n) rest
  end.

(** A clock that never goes back. *)
Definition monotoneClock (env : Env) : Prop :=
  forall i j, (i <= j)%nat -> DateNow env i <= DateNow env j.

(** ** The other ingestion surfaces *)


(** A [DataTransferItem]: its MIME type and what [getAsFile()] returns. *)
Record ClipboardItem := mkClipboardItem {
  itemType : string;
  getAsFile : option File
}.



(** A [Blob]: a MIME type and bytes. *)
Record Blob := mkBlob {
  blobType : string;
  blobBytes : list Z
}.




(** ** The mount effect and the mobile redirect *)

(** What the effect reads of [window] and [document]: the user agent, the
    location, and whether ['ontouchend' in document]. *)
Record Window := mkWindow {
  userAgent : string;
  pathname : string;
  href : string;
  ontouchend : bool
}.

Definition isMobileSafari (w : Window) : bool :=
  let ua := userAgent w in
  let iOS := matchesWord ua "iPad" || matchesWord ua "iPhone" in
  let webkit := matchesWord ua "WebKit" in
  let iOSSafari := iOS && webkit && negb (matchesWord ua "CriOS")
                   && negb (matchesWord ua "OPiOS") && negb (matchesWord ua "FxiOS") in
  iOSSafari && ontouchend w.

Definition isRedirectPage (w : Window) : bool := includes (pathname w) "/mobile".

(** [window.location.href = 'https://werase.intellwe.com/mobile']: the
    window on the page of that address, whose path is [/mobile]. *)
Definition redirected (w : Window) : Window :=
  mkWindow (userAgent w) "/mobile" "https://werase.intellwe.com/mobile" (ontouchend w).

(** The mount effect with its early return. *)
Definition mountEffect (env : Env) (w : Window) (s : State) : Window * State :=
  if isMobileSafari w && negb (isRedirectPage w) then (redirected w, s)
  else (w, mount env s).

End App.

(* ================================================================== *)
(** * The image grid ([Images], [ImageSpot]) *)
(* ================================================================== *)

Module Images.
Import JsNumber.

(** The [useState] cells of [Images].  [processedImageUrls] is an object
    used as a map from image ids to URLs, kept as the list of its writes,
    latest first: a read returns the latest write of the key. *)
Record State := mkState {
  editingImage : option ImageFile;
  processedImageUrls : list (Z * string)
}.

Definition initialState : State := mkState None [].

(** [processedImageUrls[imageId]]: [None] is [undefined]. *)
Fixpoint lookup (urls : list (Z * string)) (imageId : Z) : option string :=
  match urls with
  | [] => None
  | (k, url) :: rest => if k =? imageId then Some url else lookup rest imageId
  end.

Definition setEditingImage (v : option ImageFile) (st : State) : State :=
  mkState v (processedImageUrls st).

(** [handleEditSave]: [{ ...prev, [imageId]: editedImageUrl }], then the
    modal is closed. *)
Definition handleEditSave (imageId : Z) (editedImageUrl : string) (st : State) : State :=
  setEditingImage None
    (mkState (editingImage st) ((imageId, editedImageUrl) :: processedImageUrls st)).

(** The props given to the modal. *)
Definition onClose (st : State) : State := setEditingImage None st.

Definition onSave (url : string) (st : State) : State :=
  match editingImage st with
  | Some im => handleEditSave (id im) url st
  | None => st
  end.

Definition onEdit (image : ImageFile) (st : State) : State :=
  setEditingImage (Some image) st.

(** A URL a tile points at: the object URL made for a file, or a string. *)
Inductive Url :=
| ObjectURL (f : File)
| Href (s : string).

(** The three controls under a processed image. *)
Record Actions := mkActions {
  deletes : Z;
  downloadHref : Url;
  downloadName : string
}.

(** What a cell of the grid shows. *)
Inductive Tile :=
| Video (src : Url)
| ImageSpot (src : Url) (processing : bool) (actions : option Actions).

(** [processedImageUrl || processedURL]: an undefined or empty edited URL
    gives way to the URL of the segmented file. *)
Definition orElse (processedImageUrl : option string) (processedURL : Url) : Url :=
  match processedImageUrl with
  | Some EmptyString => processedURL
  | Some url => Href url
  | None => processedURL
  end.

Definition imageSpot (image : ImageFile) (processedImageUrl : option string) : Tile :=
  let url := ObjectURL (file image) in
  match processedFile image with
  | None => ImageSpot url true None
  | Some pf =>
      let shown := orElse processedImageUrl (ObjectURL pf) in
      ImageSpot shown false
        (Some (mkActions (id image) shown
                 ("werase-" ++ numberToString (id image) ++ ".png")))
  end.

(** One cell of [images.map(...)]. *)
Definition tile (st : State) (image : ImageFile) : Tile :=
  if includes (fileType (file image)) "video" then Video (ObjectURL (file image))
  else imageSpot image (lookup (processedImageUrls st) (id image)).

Definition grid (st : State) (images : list ImageFile) : list Tile :=
  map (tile st) images.

End Images.

(* ================================================================== *)
(** * The camera ([Camera]) *)
(* ================================================================== *)

(** The part of the Web platform the camera calls beyond [Browser]: media
    streams with their tracks, the frame a playing video shows, drawing a
    frame under the current horizontal and vertical scale of the context,
    and encoding the canvas. *)
Class MediaPlatform (B : Browser) := {
  Stream : Type;
  Track : Type;
  Frame : Type;
  (** [getUserMedia({ video: { facingMode, ... } })]. *)
  getUserMedia : string -> App.Settled Stream;
  getTracks : Stream -> list Track;
  (** [videoWidth], [videoHeight] and the current frame of a video element
      playing a stream. *)
  videoWidth : Stream -> Z;
  videoHeight : Stream -> Z;
  currentFrame : Stream -> Frame;
  (** [drawImage(video, dx, dy, dw, dh)] under a context whose transform
      scales x and y by the given factors. *)
  drawFrame : Z * Z -> Frame -> Z -> Z -> Z -> Z -> Surface -> Surface;
  (** What [toBlob(callback, type, quality)] calls back with: [None] is
      [null]. *)
  toBlob : Surface -> string -> float -> option App.Blob
}.

Module Camera.
Import JsNumber.

Section Component.
Context {B : Browser} {M : MediaPlatform B}.

(** The component: its two [useState] cells, the stream assigned to the
    video element, the tracks stopped so far, and the console. *)
Record State := mkState {
  error : string;
  isFrontCamera : bool;
  srcObject : option Stream;
  stopped : list Track;
  console : list (string * option App.Thrown)
}.

Definition initialState : State := mkState "" true None [] [].

(** [videoRef.current]: the video element is rendered only while there is
    no error message. *)
Definition videoMounted (st : State) : bool := (error st =? "")%string.

Definition facingMode (st : State) : string :=
  if isFrontCamera st then "user" else "environment".

Definition startCamera (st : State) : State :=
  match getUserMedia (facingMode st) with
  | App.Fulfilled stream =>
      if videoMounted st
      then mkState (error st) (isFrontCamera st) (Some stream) (stopped st) (console st)
      else st
  | App.Rejected err =>
      mkState "Unable to access camera. Please make sure you have granted camera permissions."
        (isFrontCamera st) (srcObject st) (stopped st)
        (console st ++ [("Camera error:"%string, Some err)])
  end.

Definition stopCamera (st : State) : State :=
  if videoMounted st then
    match srcObject st with
    | Some stream =>
        mkState (error st) (isFrontCamera st) (srcObject st)
          (stopped st ++ getTracks stream) (console st)
    | None => st
    end
  else st.

(** [switchCamera], followed by the effect it triggers: the clean-up of
    the previous effect, then [startCamera] for the new facing mode. *)
Definition switchCamera (st : State) : State :=
  let stoppedFirst := stopCamera st in
  startCamera
    (mkState (error stoppedFirst) (negb (isFrontCamera stoppedFirst))
       (srcObject stoppedFirst) (stopped stoppedFirst) (console stoppedFirst)).

(** The hidden canvas after a capture: its bitmap, the scale of the
    context's transform, and what [toBlob] called back with. *)
Record Capture := mkCapture {
  surface : Surface;
  scale : Z * Z;
  captured : option App.Blob
}.

(** [ctx.scale(x, y)] on the scale of the current transform. *)
Definition ctxScale (x y : Z) (current : Z * Z) : Z * Z :=
  (fst current * x, snd current * y).

(** The JPEG quality [0.8], as the binary64 value the literal denotes. *)
Definition quality : float := 0x1.999999999999ap-1%float.

(** [// Draw the current video frame], on the freshly sized canvas (whose
    transform is the identity): the bitmap and the scale left behind. *)
Definition drawVideo (st : State) (stream : Stream) (w h : Z) : Surface * (Z * Z) :=
  if isFrontCamera st then
    let flipped := ctxScale (-1) 1 (1, 1) in
    (drawFrame flipped (currentFrame stream) (- w) 0 w h (blank w h),
     ctxScale (-1) 1 flipped)
  else
    (drawFrame (1, 1) (currentFrame stream) 0 0 w h (blank w h), (1, 1)).

(** [captureImage]: [None] when the function does nothing at all (no video
    element, or no 2D context).  A video element that plays no stream has
    size 0 by 0 and nothing to draw. *)
Definition captureImage (st : State) : option Capture :=
  if videoMounted st then
    if context2d 0 then
      match srcObject st with
      | Some stream =>
          let '(drawn, after) :=
            drawVideo st stream (videoWidth stream) (videoHeight stream) in
          Some (mkCapture drawn after (toBlob drawn "image/jpeg" quality))
      | None =>
          Some (mkCapture (blank 0 0) (1, 1) (toBlob (blank 0 0) "image/jpeg" quality))
      end
    else None
  else None.

(** What reaches the [onCapture] prop. *)
Definition delivered (st : State) : option App.Blob :=
  match captureImage st with
  | Some c => captured c
  | None => None
  end.

(** What can happen to a mounted camera: the effect starting it, the
    clean-up stopping it, a press on the switch button. *)
Inductive Action :=
| Start
| Stop
| Switch.

Definition perform (st : State) (a : Action) : State :=
  match a with
  | Start => startCamera st
  | Stop => stopCamera st
  | Switch => switchCamera st
  end.

Definition performAll (actions : list Action) (st : State) : State :=
  fold_left perform actions st.

End Component.

End Camera.

(* ================================================================== *)
(** * A small raster: one implementation of the browser interface *)
(* ================================================================== *)

(** Images are row-major lists of RGBA pixels; files hold a width, a height
    and the raw RGBA bytes.  Drawing composites with the source-over rule
    in integer arithmetic, scaling samples the nearest source pixel, and
    filters are not supported (a draw ignores [ctx.filter], as browsers
    without canvas filters do).  The statements about the components hold
    for every [Browser]; this one makes them concrete. *)
Module Raster.

Definition Pixel : Type := Z * Z * Z * Z.

Definition transparent : Pixel := (0, 0, 0, 0).

Record Image := mkImage {
  iw : Z;
  ih : Z;
  pixels : list Pixel
}.

Fixpoint unflatten (data : list Z) : list Pixel :=
  match data with
  | r :: g :: b :: a :: rest => (r, g, b, a) :: unflatten rest
  | _ => []
  end.

Definition flatten (px : list Pixel) : list Z :=
  flat_map (fun p => let '(r, g, b, a) := p in [r; g; b; a]) px.

Definition decodeRaw (f : File) : option Image :=
  match fileBytes f with
  | w :: h :: data =>
      if (0 <=? w) && (0 <=? h) && (Z.of_nat (List.length data) =? 4 * w * h)
      then Some (mkImage w h (unflatten data))
      else None
  | _ => None
  end.

Definition pixelAt (img : Image) (x y : Z) : option Pixel :=
  if (0 <=? x) && (x <? iw img) && (0 <=? y) && (y <? ih img)
  then nth_error (pixels img) (Z.to_nat (y * iw img + x))
  else None.

(** [len] consecutive integers from [start] on. *)
Fixpoint zseq (start : Z) (len : nat) : list Z :=
  match len with
  | O => []
  | S len' => start :: zseq (start + 1) len'
  end.

(** The [w] by [h] image whose pixel at [(x, y)] is [f x y]. *)
Definition build (w h : Z) (f : Z -> Z -> Pixel) : Image :=
  mkImage w h
    (map (fun k => f (k mod w) (k / w)) (zseq 0 (Z.to_nat (w * h)))).

(** Source-over compositing of straight-alpha pixels. *)
Definition over (src dst : Pixel) : Pixel :=
  let '(sr, sg, sb, sa) := src in
  let '(dr, dg, db, da) := dst in
  let oa := sa * 255 + da * (255 - sa) in
  if oa =? 0 then transparent
  else ((sr * sa * 255 + dr * da * (255 - sa)) / oa,
        (sg * sa * 255 + dg * da * (255 - sa)) / oa,
        (sb * sa * 255 + db * da * (255 - sa)) / oa,
        oa / 255).

Definition hexDigit (c : ascii) : option Z :=
  let n := Z.of_nat (nat_of_ascii c) in
  if (48 <=? n) && (n <=? 57) then Some (n - 48)
  else if (97 <=? n) && (n <=? 102) then Some (n - 87)
  else if (65 <=? n) && (n <=? 70) then Some (n - 55)
  else None.

(** A [#rrggbb] colour as an opaque pixel; anything else paints black. *)
Definition parseColor (style : string) : Pixel :=
  match style with
  | String "#" (String a (String b (String c (String d (String e (String f EmptyString)))))) =>
      match hexDigit a, hexDigit b, hexDigit c, hexDigit d, hexDigit e, hexDigit f with
      | Some a, Some b, Some c, Some d, Some e, Some f =>
          (16 * a + b, 16 * c + d, 16 * e + f, 255)
      | _, _, _, _, _, _ => (0, 0, 0, 255)
      end
  | _ => (0, 0, 0, 255)
  end.

Definition inside (x y rx ry rw rh : Z) : bool :=
  (rx <=? x) && (x <? rx + rw) && (ry <=? y) && (y <? ry + rh).

(** Repaint every pixel of [dst] from its old value. *)
Definition repaint (dst : Image) (f : Z -> Z -> Pixel -> Pixel) : Image :=
  build (iw dst) (ih dst)
    (fun x y => match pixelAt dst x y with
                | Some d => f x y d
                | None => transparent
                end).

Definition blankImage (w h : Z) : Image := build w h (fun _ _ => transparent).

Definition fillRectImage (style : string) (x y w h : Z) (dst : Image) : Image :=
  repaint dst (fun px py d =>
    if inside px py x y w h then over (parseColor style) d else d).

Definition clearRectImage (x y w h : Z) (dst : Image) : Image :=
  repaint dst (fun px py d => if inside px py x y w h then transparent else d).

Definition drawImageAt (_ : Filter) (src : Image) (dx dy : Z) (dst : Image) : Image :=
  repaint dst (fun px py d =>
    match pixelAt src (px - dx) (py - dy) with
    | Some p => over p d
    | None => d
    end).

Definition drawImageInto (_ : Filter) (src : Image) (dx dy dw dh : Z) (dst : Image)
  : Image :=
  repaint dst (fun px py d =>
    if inside px py dx dy dw dh then
      match pixelAt src ((px - dx) * iw src / dw) ((py - dy) * ih src / dh) with
      | Some p => over p d
      | None => d
      end
    else d).

Definition readPixels (sx sy sw sh : Z) (src : Image) : list Z :=
  flatten (pixels (build sw sh (fun x y =>
    match pixelAt src (sx + x) (sy + y) with
    | Some p => p
    | None => transparent
    end))).

Definition writePixels (data : list Z) (w h dx dy : Z) (dst : Image) : Image :=
  let src := mkImage w h (unflatten data) in
  repaint dst (fun px py d =>
    match pixelAt src (px - dx) (py - dy) with
    | Some p => p
    | None => d
    end).

Definition byteChar (z : Z) : string :=
  String (ascii_of_nat (Z.to_nat z)) EmptyString.

Definition dataURL (type : string) (src : Image) : string :=
  ("data:" ++ type ++ ";raw," ++ concat "" (map byteChar (flatten (pixels src))))%string.

Lemma pixelAt_blankImage (w h x y : Z) (p : Pixel) :
  pixelAt (blankImage w h) x y = Some p -> p = transparent.
Proof.
  unfold pixelAt.
  destruct ((0 <=? x) && (x <? iw (blankImage w h)) && (0 <=? y)
            && (y <? ih (blankImage w h))); [| discriminate].
  intros Hnth. apply nth_error_In in Hnth. cbn in Hnth.
  apply in_map_iff in Hnth. now destruct Hnth as (k & <- & _).
Qed.

Lemma zseq_length (start : Z) (len : nat) : List.length (zseq start len) = len.
Proof.
  revert start. induction len as [| len IH]; intros start; cbn; auto.
Qed.

Lemma map_constant {A C : Type} (f : A -> C) (c : C) (l : list A) :
  (forall a, f a = c) -> map f l = repeat c (List.length l).
Proof.
  intros Hf. induction l as [| a l IH]; cbn; [reflexivity |].
  now rewrite Hf, IH.
Qed.

Lemma flatten_transparent (n : nat) :
  flatten (repeat transparent n) = repeat 0 (4 * n).
Proof.
  induction n as [| n IH]; [reflexivity |].
  replace (4 * S n)%nat with (S (S (S (S (4 * n))))) by lia.
  cbn [repeat]. unfold flatten in *. cbn [flat_map transparent app].
  now rewrite IH.
Qed.

Lemma readPixels_blankImage (w h : Z) :
  0 <= w -> 0 <= h ->
  readPixels 0 0 w h (blankImage w h) = repeat 0 (Z.to_nat (4 * w * h)).
Proof.
  intros Hw Hh. unfold readPixels, build. cbn [pixels].
  rewrite (map_constant _ transparent).
  - rewrite zseq_length, flatten_transparent. f_equal.
    assert (0 <= w * h) by now apply Z.mul_nonneg_nonneg.
    replace (4 * w * h) with (4 * (w * h)) by ring. lia.
  - intros k.
    destruct (pixelAt (blankImage w h) (0 + k mod w) (0 + k / w))
      as [p |] eqn:Hp; [| reflexivity].
    now apply pixelAt_blankImage in Hp.
Qed.

(** The raster as a [Browser]: every canvas has a 2D context. *)
Definition browser : Browser :=
  {| Bitmap := Image;
     Surface := Image;
     decode := decodeRaw;
     imageWidth := iw;
     imageHeight := ih;
     context2d := fun _ => true;
     blank := blankImage;
     fillRect := fillRectImage;
     clearRect := clearRectImage;
     drawImage := drawImageAt;
     drawImageScaled := drawImageInto;
     drawCanvas := drawImageAt;
     getImageData := readPixels;
     putImageData := writePixels;
     toDataURL := dataURL;
     getImageData_blank := readPixels_blankImage |}.

(** ** The raster as a media platform

    One front camera that shows a fixed 2 by 1 frame and has one track; no
    rear camera.  A frame is drawn by nearest-neighbour sampling, mirrored
    when the scale of the transform is negative; a canvas without pixels
    encodes to [null]. *)
Definition drawFrameAt (s : Z * Z) (src : Image) (dx dy dw dh : Z) (dst : Image)
  : Image :=
  repaint dst (fun px py d =>
    let ux := if fst s <? 0 then - px - 1 else px in
    let uy := if snd s <? 0 then - py - 1 else py in
    if inside ux uy dx dy dw dh then
      match pixelAt src ((ux - dx) * iw src / dw) ((uy - dy) * ih src / dh) with
      | Some p => over p d
      | None => d
      end
    else d).

Definition encode (surf : Image) (type : string) (_ : float) : option App.Blob :=
  match pixels surf with
  | [] => None
  | _ => Some (App.mkBlob type (iw surf :: ih surf :: flatten (pixels surf)))
  end.

Definition frontFrame : Image := mkImage 2 1 [(200, 0, 0, 255); (0, 0, 200, 255)].

Definition media : MediaPlatform browser :=
  {| Stream := Image * list nat;
     Track := nat;
     Frame := Image;
     getUserMedia := fun mode =>
       if (mode =? "user")%string then App.Fulfilled (frontFrame, [7%nat])
       else App.Rejected (App.ErrorObject "NotFoundError");
     getTracks := snd;
     videoWidth := fun stream => iw (fst stream);
     videoHeight := fun stream => ih (fst stream);
     currentFrame := fst;
     drawFrame := drawFrameAt : Z * Z -> Image -> Z -> Z -> Z -> Z ->
                                @Surface browser -> @Surface browser;
     toBlob := encode : @Surface browser -> string -> float -> option App.Blob |}.

End Raster.

(* ================================================================== *)
(** * Concrete inputs *)
(* ================================================================== *)

(** Files in the raster's raw format, edit configurations and
    environments on which the statements below are instantiated. *)
Module Examples.

(** A 2 by 1 cutout: an opaque pixel, then a fully transparent one. *)
Definition foreground : File :=
  mkFile "cutout.png" "image/png" [2; 1; 10; 20; 30; 255; 0; 0; 0; 0].

Definition foregroundBitmap : Raster.Image :=
  Raster.mkImage 2 1 [(10, 20, 30, 255); (0, 0, 0, 0)].

(** A 1 by 1 opaque blue backdrop. *)
Definition backdrop : File :=
  mkFile "sky.png" "image/png" [1; 1; 0; 0; 200; 255].

Definition backdropBitmap : Raster.Image :=
  Raster.mkImage 1 1 [(0, 0, 200, 255)].

(** A file whose bytes are no image. *)
Definition broken : File := mkFile "notes.txt" "text/plain" [7].

Definition photo : File := mkFile "photo.jpg" "image/jpeg" [].
Definition photoB : File := mkFile "b.jpg" "image/jpeg" [].
Definition photoC : File := mkFile "c.jpg" "image/jpeg" [].

Definition cutout : ImageFile := mkImageFile 1000 photo (Some foreground).

Definition brightOnColor : EditModal.State :=
  EditModal.setBrightnessValue 100
    (EditModal.setSelectedEffect "brightness"
       (EditModal.setBgColor "#804020" EditModal.initialState)).

Definition withBackdrop : EditModal.State :=
  EditModal.setCustomBgImage (Some backdrop)
    (EditModal.setBgType "image" EditModal.initialState).

Definition withBroken : EditModal.State :=
  EditModal.setCustomBgImage (Some broken)
    (EditModal.setBgType "image" EditModal.initialState).

Definition imageNotChosen : EditModal.State :=
  EditModal.setBgType "image" EditModal.initialState.

(** A desktop browser with WebGPU. *)
Definition desktop : App.ModelInfo := App.mkModelInfo true false.

(** Every segmentation succeeds; [Date.now()] is [t] throughout. *)
Definition calm (t : Z) (init : option string -> App.Settled bool) : App.Env :=
  App.mkEnv (fun _ => t) init desktop (fun _ _ => App.Fulfilled (Some [foreground])).

(** The default model loads, any requested model does not. *)
Definition requestedModelFails : App.Env :=
  calm 1000 (fun m => match m with
                      | Some _ => App.Fulfilled false
                      | None => App.Fulfilled true
                      end).

(** The requested model is rejected with the fallback message. *)
Definition requestedModelFallsBack : App.Env :=
  calm 1000 (fun m =>
    match m with
    | Some _ => App.Rejected
                  (App.ErrorObject "WebGPU model failed. Falling back to briaai/RMBG-1.4")
    | None => App.Fulfilled true
    end).

(** The second segmentation call of the ingestion is rejected. *)
Definition secondCallRejected : App.Env :=
  App.mkEnv (fun _ => 1000) (fun _ => App.Fulfilled true) desktop
    (fun n _ => match n with
                | 1%nat => App.Rejected (App.ErrorObject "corrupt image")
                | _ => App.Fulfilled (Some [foreground])
                end).

(** The application once mounted. *)
Definition mounted : App.State := App.mount requestedModelFails App.initialState.

(** A clipboard with a text item, an image item without a file and two
    image items with files. *)
Definition clipboard : list App.ClipboardItem :=
  [App.mkClipboardItem "text/plain" None;
   App.mkClipboardItem "image/png" None;
   App.mkClipboardItem "image/png" (Some photo);
   App.mkClipboardItem "image/jpeg" (Some photoB)].

(** Safari on an iPhone, on the front page. *)
Definition iPhoneSafari : App.Window :=
  App.mkWindow
    "Mozilla/5.0 (iPhone; CPU iPhone OS 17_0 like Mac OS X) AppleWebKit/605.1.15 (KHTML, like Gecko) Version/17.0 Mobile/15E148 Safari/604.1"
    "/" "https://werase.intellwe.com/" true.

(** The camera of the raster once its front stream plays. *)
Definition cameraPlaying : Camera.State (M := Raster.media) :=
  Camera.startCamera (M := Raster.media) (Camera.initialState (M := Raster.media)).


Definition snapshotBlob : App.Blob :=
  App.mkBlob "image/jpeg" [2; 1; 0; 0; 200; 255; 200; 0; 0; 255].

(** The grid while the cutout is being edited, and a modal whose render
    has exported a URL. *)
Definition editingCutout : Images.State := Images.onEdit cutout Images.initialState.

Definition rendered : EditModal.State :=
  EditModal.setExportUrl "data:image/png;base64,AAAA" brightOnColor.

End Examples.

(* ================================================================== *)
(** * Properties of the edit configuration *)
(* ================================================================== *)

Section EffectSelection.
Import EditModal.

Lemma setSelectedEffect_intensities (kind : string) (s : State) :
  blurValue (setSelectedEffect kind s) = blurValue s /\
  brightnessValue (setSelectedEffect kind s) = brightnessValue s /\
  contrastValue (setSelectedEffect kind s) = contrastValue s.
Proof. repeat split. Qed.

Lemma setSelectedEffect_back (kind : string) (s : State) :
  setSelectedEffect (selectedEffect s) (setSelectedEffect kind s) = s.
Proof. destruct s; reflexivity. Qed.

(** Moving the slider touches the intensity of the selected kind only. *)
Lemma handleEffectValueChange_frame (value : Z) (s : State) :
  let s' := handleEffectValueChange value s in
  selectedEffect s' = selectedEffect s /\
  (selectedEffect s <> "blur"%string -> blurValue s' = blurValue s) /\
  (selectedEffect s <> "brightness"%string -> brightnessValue s' = brightnessValue s) /\
  (selectedEffect s <> "contrast"%string -> contrastValue s' = contrastValue s).
Proof.
  unfold handleEffectValueChange.
  destruct (String.eqb_spec (selectedEffect s) "blur") as [Hb | Hb].
  { cbn. intuition congruence. }
  destruct (String.eqb_spec (selectedEffect s) "brightness") as [Hr | Hr].
  { cbn. intuition congruence. }
  destruct (String.eqb_spec (selectedEffect s) "contrast") as [Hc | Hc];
    cbn; intuition congruence.
Qed.

Lemma getCurrentEffectValue_frame (s1 s2 : State) :
  selectedEffect s1 = selectedEffect s2 ->
  (selectedEffect s2 = "blur"%string -> blurValue s1 = blurValue s2) ->
  (selectedEffect s2 = "brightness"%string -> brightnessValue s1 = brightnessValue s2) ->
  (selectedEffect s2 = "contrast"%string -> contrastValue s1 = contrastValue s2) ->
  getCurrentEffectValue s1 = getCurrentEffectValue s2.
Proof.
  intros Hsel Hb Hr Hc. unfold getCurrentEffectValue. rewrite Hsel.
  destruct (String.eqb_spec (selectedEffect s2) "blur"); [auto |].
  destruct (String.eqb_spec (selectedEffect s2) "brightness"); [auto |].
  destruct (String.eqb_spec (selectedEffect s2) "contrast"); auto.
Qed.

(** C9.  Selecting another effect kind changes no stored intensity; so
    selecting a kind and coming back gives the state one started from, and
    even after the slider was moved while the other kind was selected, the
    first kind shows the intensity it had. *)
Theorem effect_kind_change_keeps_intensities :
  forall (s : State) (other : string) (value : Z),
    (blurValue (setSelectedEffect other s) = blurValue s /\
     brightnessValue (setSelectedEffect other s) = brightnessValue s /\
     contrastValue (setSelectedEffect other s) = contrastValue s) /\
    setSelectedEffect (selectedEffect s) (setSelectedEffect other s) = s /\
    (other <> selectedEffect s ->
     getCurrentEffectValue
       (setSelectedEffect (selectedEffect s)
          (handleEffectValueChange value (setSelectedEffect other s)))
     = getCurrentEffectValue s).
Proof.
  intros s other value. split; [apply setSelectedEffect_intensities |].
  split; [apply setSelectedEffect_back |].
  intros Hother.
  pose proof (handleEffectValueChange_frame value (setSelectedEffect other s))
    as (Hsel & Hb & Hr & Hc).
  cbn [selectedEffect blurValue brightnessValue contrastValue setSelectedEffect]
    in Hsel, Hb, Hr, Hc.
  apply getCurrentEffectValue_frame;
    cbn [selectedEffect blurValue brightnessValue contrastValue setSelectedEffect].
  - reflexivity.
  - intros E. rewrite Hb by congruence. reflexivity.
  - intros E. rewrite Hr by congruence. reflexivity.
  - intros E. rewrite Hc by congruence. reflexivity.
Qed.

End EffectSelection.

(* ================================================================== *)
(** * Properties of the pixel effects *)
(* ================================================================== *)

Section TypedArray.
Import JsNumber.

Lemma setIndex_length (data : Uint8ClampedArray) (i : nat) (x : float) :
  List.length (setIndex data i x) = List.length data.
Proof.
  revert i. induction data as [| c rest IH]; intros [| j]; cbn; auto.
Qed.

Lemma setIndex_past_end (data : Uint8ClampedArray) (i : nat) (x : float) :
  (List.length data <= i)%nat -> setIndex data i x = data.
Proof.
  revert i. induction data as [| c rest IH]; intros [| j] Hlen; cbn in *;
    try reflexivity; try lia.
  f_equal. apply IH. lia.
Qed.

Lemma setIndex_middle (pre : list Z) (c : Z) (suf : list Z) (x : float) :
  setIndex (pre ++ c :: suf) (List.length pre) x = pre ++ ToUint8Clamp x :: suf.
Proof.
  induction pre as [| p pre IH]; cbn; [reflexivity | now rewrite IH].
Qed.

Lemma getIndex_middle (pre : list Z) (c : Z) (suf : list Z) :
  getIndex (pre ++ c :: suf) (List.length pre) = ofZ c.
Proof.
  unfold getIndex. rewrite nth_error_app2 by lia.
  now rewrite Nat.sub_diag.
Qed.

Lemma rgbBody_length F i data :
  List.length (rgbBody F i data) = List.length data.
Proof. unfold rgbBody. now rewrite !setIndex_length. Qed.

Lemma rgbBody_cons F (p : Z) (rest : list Z) (i : nat) :
  rgbBody F (S i) (p :: rest) = p :: rgbBody F i rest.
Proof. reflexivity. Qed.

(** One turn of the loop at the start of a suffix. *)
Lemma rgbBody_at (F : float -> float) (pre suf : list Z) :
  let f c := ToUint8Clamp (F (ofZ c)) in
  rgbBody F (List.length pre) (pre ++ suf)
  = pre ++ match suf with
           | r :: g :: b :: rest => f r :: f g :: f b :: rest
           | [r; g] => [f r; f g]
           | [r] => [f r]
           | [] => []
           end.
Proof.
  intros f. induction pre as [| p pre IH].
  - destruct suf as [| r [| g [| b rest]]]; reflexivity.
  - cbn [List.length app]. now rewrite rgbBody_cons, IH.
Qed.

(** The loop invariant: with the entries before [i] already final, the loop
    from [i] leaves them alone and maps the rest pixel by pixel. *)
Lemma forStride4_rgbBody (F : float -> float) (fuel : nat) :
  forall pre suf,
    (List.length suf <= fuel)%nat ->
    forStride4 fuel (List.length pre) (rgbBody F) (pre ++ suf)
    = pre ++ EditModal.mapRGB (fun c => ToUint8Clamp (F (ofZ c))) suf.
Proof.
  induction fuel as [| fuel IH]; intros pre suf Hfuel.
  - destruct suf; [reflexivity | cbn in Hfuel; lia].
  - cbn [forStride4]. rewrite length_app.
    destruct suf as [| r [| g [| b [| a rest]]]].
    + replace (List.length pre <? List.length pre + List.length [])%nat
        with false by (symmetry; apply Nat.ltb_ge; cbn; lia).
      reflexivity.
    + replace (List.length pre <? List.length pre + List.length [r])%nat
        with true by (symmetry; apply Nat.ltb_lt; cbn; lia).
      rewrite rgbBody_at.
      destruct fuel; [reflexivity |]. cbn [forStride4].
      rewrite length_app.
      replace (List.length pre + 4 <? _)%nat
        with false by (symmetry; apply Nat.ltb_ge; cbn; lia).
      reflexivity.
    + replace (List.length pre <? List.length pre + List.length [r; g])%nat
        with true by (symmetry; apply Nat.ltb_lt; cbn; lia).
      rewrite rgbBody_at.
      destruct fuel; [reflexivity |]. cbn [forStride4].
      rewrite length_app.
      replace (List.length pre + 4 <? _)%nat
        with false by (symmetry; apply Nat.ltb_ge; cbn; lia).
      reflexivity.
    + replace (List.length pre <? List.length pre + List.length [r; g; b])%nat
        with true by (symmetry; apply Nat.ltb_lt; cbn; lia).
      rewrite rgbBody_at.
      destruct fuel; [reflexivity |]. cbn [forStride4].
      rewrite length_app.
      replace (List.length pre + 4 <? _)%nat
        with false by (symmetry; apply Nat.ltb_ge; cbn; lia).
      reflexivity.
    + replace (List.length pre <? _)%nat
        with true by (symmetry; apply Nat.ltb_lt; cbn; lia).
      rewrite rgbBody_at.
      pose proof (IH (pre ++ [ToUint8Clamp (F (ofZ r)); ToUint8Clamp (F (ofZ g));
                              ToUint8Clamp (F (ofZ b)); a]) rest) as IH'.
      rewrite length_app, <- !app_assoc in IH'. cbn [List.length app] in IH'.
      rewrite IH' by (cbn in Hfuel; lia).
      reflexivity.
Qed.

Lemma forStride4_mapRGB (F : float -> float) (data : Uint8ClampedArray) :
  forStride4 (List.length data) 0 (rgbBody F) data
  = EditModal.mapRGB (fun c => ToUint8Clamp (F (ofZ c))) data.
Proof. exact (forStride4_rgbBody F (List.length data) [] data (le_n _)). Qed.

End TypedArray.

Section PixelEffects.
Import JsNumber EditModal.

Lemma list_ind4 {A : Type} (P : list A -> Prop) :
  P [] -> (forall a, P [a]) -> (forall a b, P [a; b]) ->
  (forall a b c, P [a; b; c]) ->
  (forall a b c d rest, P rest -> P (a :: b :: c :: d :: rest)) ->
  forall l, P l.
Proof.
  intros H0 H1 H2 H3 H4. fix IH 1.
  intros [| a [| b [| c [| d rest]]]];
    [exact H0 | apply H1 | apply H2 | apply H3 | apply H4, IH].
Qed.

Lemma mapRGB_length (f : Z -> Z) (data : list Z) :
  List.length (mapRGB f data) = List.length data.
Proof.
  induction data as [| | | | a b c d rest IH] using list_ind4; cbn; auto.
Qed.

(** Entry by entry: every fourth entry (alpha) is kept, the others go
    through [f]. *)
Lemma mapRGB_nth (f : Z -> Z) (data : list Z) :
  forall i, (i < List.length data)%nat ->
    nth i (mapRGB f data) 0
    = if (i mod 4 =? 3)%nat then nth i data 0 else f (nth i data 0).
Proof.
  induction data as [| a | a b | a b c | a b c d rest IH] using list_ind4;
    intros i Hi; cbn [List.length] in Hi.
  - lia.
  - destruct i as [| i]; [reflexivity | lia].
  - destruct i as [| [| i]]; try reflexivity; lia.
  - destruct i as [| [| [| i]]]; try reflexivity; lia.
  - destruct i as [| [| [| [| j]]]]; try reflexivity.
    cbn [mapRGB nth].
    replace (S (S (S (S j)))) with (j + 1 * 4)%nat by lia.
    rewrite Nat.Div0.mod_add. apply IH. lia.
Qed.

Lemma upto_In (n : nat) (z : Z) : 0 <= z < Z.of_nat n -> In z (upto n).
Proof.
  intros Hz. unfold upto. apply in_map_iff. exists (Z.to_nat z).
  split; [lia | apply in_seq; lia].
Qed.

Lemma everywhere_sound (p : Z -> Z -> bool) :
  everywhere p = true ->
  forall v c, 0 <= v <= 100 -> 0 <= c <= 255 -> p v c = true.
Proof.
  unfold everywhere. intros Hall v c Hv Hc.
  rewrite forallb_forall in Hall.
  specialize (Hall v (upto_In 101 v ltac:(lia))).
  rewrite forallb_forall in Hall.
  exact (Hall c (upto_In 256 c ltac:(lia))).
Qed.

(** The binary64 computation of the contrast loop, followed by the store
    into the clamped array, gives on every slider value and channel value
    the exactly computed remap, rounded and clamped. *)
Lemma contrastChannel_table :
  everywhere (fun v c => contrastChannel v c =? exactContrast v c) = true.
Proof. vm_compute. reflexivity. Qed.

Lemma contrastChannel_exact (v c : Z) :
  0 <= v <= 100 -> 0 <= c <= 255 -> contrastChannel v c = exactContrast v c.
Proof.
  intros Hv Hc. apply Z.eqb_eq.
  exact (everywhere_sound _ contrastChannel_table v c Hv Hc).
Qed.

Lemma clamp255_range (z : Z) : 0 <= clamp255 z <= 255.
Proof. unfold clamp255. lia. Qed.

(** The brightness loop on one channel: the stored value is in range and
    within one half of [min(255, c * v / 50)], stated over the common
    denominator 50. *)
Lemma brightnessChannel_table :
  everywhere (fun v c =>
    let out := brightnessChannel v c in
    (0 <=? out) && (out <=? 255)
    && (Z.abs (50 * out - Z.min (50 * 255) (c * v)) <=? 25)) = true.
Proof. vm_compute. reflexivity. Qed.

Lemma brightnessChannel_nearest (v c : Z) :
  0 <= v <= 100 -> 0 <= c <= 255 ->
  0 <= brightnessChannel v c <= 255 /\
  Z.abs (50 * brightnessChannel v c - Z.min (50 * 255) (c * v)) <= 25.
Proof.
  intros Hv Hc.
  pose proof (everywhere_sound _ brightnessChannel_table v c Hv Hc) as H.
  cbv zeta in H. rewrite !andb_true_iff in H.
  destruct H as [[H0 H1] H2]. lia.
Qed.

Lemma contrast_mapRGB (v : Z) (data : Uint8ClampedArray) :
  contrast v data = mapRGB (contrastChannel v) data.
Proof.
  change (contrast v data)
    with (forStride4 (List.length data) 0
            (rgbBody (contrastNumber (contrastFactor v))) data).
  apply forStride4_mapRGB.
Qed.

Lemma brightness_mapRGB (v : Z) (data : Uint8ClampedArray) :
  brightness v data = mapRGB (brightnessChannel v) data.
Proof.
  change (brightness v data)
    with (forStride4 (List.length data) 0 (rgbBody (brightnessNumber v)) data).
  apply forStride4_mapRGB.
Qed.

Lemma Forall_nth_range (data : list Z) (i : nat) :
  Forall (fun c => 0 <= c <= 255) data -> (i < List.length data)%nat ->
  0 <= nth i data 0 <= 255.
Proof.
  intros Hall Hi. rewrite Forall_forall in Hall. apply Hall, nth_In, Hi.
Qed.

(** C2.  On a pixel buffer with entries in [0, 255] and a slider value in
    [0, 100], the contrast effect keeps the buffer's length, leaves every
    alpha entry (index 3 mod 4) as it was, and turns every colour entry [c]
    into [factor * (c - 128) + 128] for
    [factor = 259 * (v + 255) / (255 * (259 - v))], rounded to the nearest
    integer and clamped to [0, 255]; every entry of the result is again in
    [0, 255]. *)
Theorem contrast_remaps_and_clamps :
  forall (contrastValue : Z) (data : Uint8ClampedArray) (i : nat),
    0 <= contrastValue <= 100 ->
    Forall (fun c => 0 <= c <= 255) data ->
    (i < List.length data)%nat ->
    List.length (contrast contrastValue data) = List.length data /\
    0 <= nth i (contrast contrastValue data) 0 <= 255 /\
    nth i (contrast contrastValue data) 0
    = (if (i mod 4 =? 3)%nat then nth i data 0
       else exactContrast contrastValue (nth i data 0)).
Proof.
  intros v data i Hv Hdata Hi.
  pose proof (Forall_nth_range data i Hdata Hi) as Hc.
  rewrite contrast_mapRGB, mapRGB_length, mapRGB_nth by exact Hi.
  rewrite (contrastChannel_exact v _ Hv Hc).
  split; [reflexivity |]. split; [| reflexivity].
  destruct (i mod 4 =? 3)%nat; [exact Hc | apply clamp255_range].
Qed.

(** C6.  On a pixel buffer with entries in [0, 255] and a slider value in
    [0, 100], the brightness effect keeps the buffer's length, leaves every
    alpha entry as it was, and turns every colour entry [c] into the
    integer nearest to [min(255, c * v / 50)]; so 50 leaves the entry
    unchanged, 100 doubles it up to 255, and 0 gives 0. *)
Theorem brightness_scales_and_clamps :
  forall (brightnessValue : Z) (data : Uint8ClampedArray) (i : nat),
    0 <= brightnessValue <= 100 ->
    Forall (fun c => 0 <= c <= 255) data ->
    (i < List.length data)%nat ->
    let c := nth i data 0 in
    let out := nth i (brightness brightnessValue data) 0 in
    List.length (brightness brightnessValue data) = List.length data /\
    ((i mod 4 = 3)%nat -> out = c) /\
    ((i mod 4 <> 3)%nat ->
       0 <= out <= 255 /\
       Z.abs (50 * out - Z.min (50 * 255) (c * brightnessValue)) <= 25 /\
       (brightnessValue = 50 -> out = c) /\
       (brightnessValue = 100 -> out = Z.min 255 (2 * c)) /\
       (brightnessValue = 0 -> out = 0)).
Proof.
  intros v data i Hv Hdata Hi c out.
  pose proof (Forall_nth_range data i Hdata Hi) as Hc. fold c in Hc.
  assert (Hout : out = if (i mod 4 =? 3)%nat then c else brightnessChannel v c).
  { unfold out. rewrite brightness_mapRGB. now apply mapRGB_nth. }
  split; [now rewrite brightness_mapRGB, mapRGB_length |].
  split.
  - intros Hmod. rewrite Hout.
    now replace (i mod 4 =? 3)%nat with true by (symmetry; now apply Nat.eqb_eq).
  - intros Hmod.
    replace (i mod 4 =? 3)%nat with false in Hout
      by (symmetry; now apply Nat.eqb_neq).
    destruct (brightnessChannel_nearest v c Hv Hc) as [Hrange Hnear].
    rewrite <- Hout in Hrange, Hnear.
    repeat split; try lia.
Qed.

End PixelEffects.

(* ================================================================== *)
(** * Properties of the rendering pipeline *)
(* ================================================================== *)

Section RenderPipeline.
Import JsNumber EditModal.
Context {B : Browser}.

Lemma applyBackground_color (s : State) (c : Canvas) :
  bgType s = "color"%string ->
  applyBackground s c
  = Done (tt, mkCanvas (width c) (height c)
                (fillRect (bgColor s) 0 0 (width c) (height c) (surface c))
                (bgColor s) (filter c)).
Proof.
  intros Hbg. unfold applyBackground. rewrite Hbg. reflexivity.
Qed.

Lemma applyBackground_image (s : State) (c : Canvas) (f : File) (bgImg : Bitmap) :
  bgType s = "image"%string -> customBgImage s = Some f ->
  decode f = Some bgImg ->
  applyBackground s c
  = Done (tt, mkCanvas (width c) (height c)
                (drawImageScaled (filter c) bgImg 0 0 (width c) (height c) (surface c))
                (fillStyle c) (filter c)).
Proof.
  intros Hbg Hfile Hdec. unfold applyBackground. rewrite Hbg, Hfile. cbn.
  unfold bind, await, loadImage. rewrite Hdec. reflexivity.
Qed.

Lemma applyBackground_undecodable (s : State) (c : Canvas) (f : File) :
  bgType s = "image"%string -> customBgImage s = Some f ->
  decode f = None ->
  applyBackground s c = Suspended.
Proof.
  intros Hbg Hfile Hdec. unfold applyBackground. rewrite Hbg, Hfile. cbn.
  unfold bind, await, loadImage. rewrite Hdec. reflexivity.
Qed.

Lemma applyBackground_no_image (s : State) (c : Canvas) :
  bgType s = "image"%string -> customBgImage s = None ->
  applyBackground s c = Done (tt, c).
Proof.
  intros Hbg Hfile. unfold applyBackground. rewrite Hbg, Hfile. reflexivity.
Qed.

(** The effect step of the program is [effectOver] on the surface it finds;
    the context state is as before. *)
Lemma applyEffects_effectOver (s : State) (c : Canvas) :
  filter c = FilterNone ->
  applyEffects s c
  = Done (tt, mkCanvas (width c) (height c)
                (effectOver s (width c) (height c) (surface c))
                (fillStyle c) FilterNone).
Proof.
  intros Hfilter. destruct c as [w h surf style flt]. cbn in Hfilter. subst flt.
  unfold applyEffects, effectOver, applyBlur.
  destruct (selectedEffect s =? "none")%string; [reflexivity |].
  destruct (selectedEffect s =? "blur")%string.
  { cbn. destruct (context2d 1); reflexivity. }
  destruct (selectedEffect s =? "brightness")%string; [reflexivity |].
  destruct (selectedEffect s =? "contrast")%string; reflexivity.
Qed.

(** The program after the foreground has loaded, for a background step
    that ends with surface [painted] and leaves the filter alone. *)
Lemma draw_after_background (s : State) (pf : File) (img : Bitmap)
  (painted : Surface) (style : string) :
  decode pf = Some img ->
  applyBackground s (sized (imageWidth img) (imageHeight img))
  = Done (tt, mkCanvas (imageWidth img) (imageHeight img) painted style FilterNone) ->
  draw s pf createCanvas
  = Done (tt, mkCanvas (imageWidth img) (imageHeight img)
                (effectOver s (imageWidth img) (imageHeight img)
                   (drawImage FilterNone img 0 0 painted))
                style FilterNone).
Proof.
  intros Hdec Hbg. unfold draw, bind, await, loadImage. rewrite Hdec.
  cbn [setWidth setHeight modify createCanvas width height].
  fold (sized (imageWidth img) (imageHeight img)). rewrite Hbg.
  unfold ctxDrawImage, onSurface, modify. cbn [width height surface fillStyle filter].
  now rewrite applyEffects_effectOver.
Qed.

Lemma draw_background_suspended (s : State) (pf : File) :
  (forall img, decode pf = Some img ->
     applyBackground s (sized (imageWidth img) (imageHeight img)) = Suspended) ->
  draw s pf createCanvas = Suspended.
Proof.
  intros Hbg. unfold draw, bind, await, loadImage.
  destruct (decode pf) as [img |] eqn:Hdec; [| reflexivity].
  cbn [setWidth setHeight modify createCanvas width height].
  fold (sized (imageWidth img) (imageHeight img)). now rewrite (Hbg img).
Qed.

Lemma applyChanges_draw (im : ImageFile) (pf : File) (s : State) :
  processedFile im = Some pf -> context2d 0 = true ->
  applyChanges (Some im) s
  = match draw s pf createCanvas with
    | Done (_, canvas) => exported (surface canvas) s
    | Suspended => Suspended
    end.
Proof.
  intros Hpf Hctx. unfold applyChanges. now rewrite Hpf, Hctx.
Qed.

(** C5.  A render that runs to its end paints in a fixed order.  On the
    blank surface of the foreground's size the background comes first: a
    fill of the whole surface with the chosen colour, or the fill image
    drawn into the rectangle of exactly the output width and height.  The
    foreground is drawn over that at the origin with the default
    compositing rule.  The selected effect is then computed from the
    surface that holds both, and the result is what is exported. *)
Theorem render_steps_in_order :
  forall (s : State) (im : ImageFile) (pf : File) (img : Bitmap),
    processedFile im = Some pf ->
    context2d 0 = true ->
    decode pf = Some img ->
    let w := imageWidth img in
    let h := imageHeight img in
    (bgType s = "color"%string ->
     applyChanges (Some im) s
     = exported
         (effectOver s w h
            (drawImage FilterNone img 0 0
               (fillRect (bgColor s) 0 0 w h (blank w h)))) s) /\
    (forall (f : File) (bgImg : Bitmap),
       bgType s = "image"%string ->
       customBgImage s = Some f ->
       decode f = Some bgImg ->
       applyChanges (Some im) s
       = exported
           (effectOver s w h
              (drawImage FilterNone img 0 0
                 (drawImageScaled FilterNone bgImg 0 0 w h (blank w h)))) s).
Proof.
  intros s im pf img Hpf Hctx Hdec w h.
  rewrite (applyChanges_draw im pf s Hpf Hctx). split.
  - intros Hbg.
    now rewrite (draw_after_background s pf img _ _ Hdec
                   (applyBackground_color s (sized w h) Hbg)).
  - intros f bgImg Hbg Hfile Hfill.
    now rewrite (draw_after_background s pf img _ _ Hdec
                   (applyBackground_image s (sized w h) f bgImg Hbg Hfile Hfill)).
Qed.

(** C3, as the code has it.  When the chosen background image does not
    decode, the render does not finish: [applyChanges] stays suspended at
    the [await] of the image's [load] event, so nothing is exported and no
    blank fill is substituted. *)
Theorem undecodable_background_suspends_render :
  forall (s : State) (im : ImageFile) (pf f : File),
    processedFile im = Some pf ->
    context2d 0 = true ->
    bgType s = "image"%string ->
    customBgImage s = Some f ->
    decode f = None ->
    applyChanges (Some im) s = Suspended.
Proof.
  intros s im pf f Hpf Hctx Hbg Hfile Hdec.
  rewrite (applyChanges_draw im pf s Hpf Hctx).
  rewrite draw_background_suspended; [reflexivity |].
  intros img _. now apply applyBackground_undecodable with (f := f).
Qed.

(** C10.  With the image background selected and no image chosen, nothing
    is painted before the foreground: the render finishes and exports the
    foreground drawn on the blank surface (every entry of which is 0, that
    is, transparent), after the selected effect if there is one. *)
Theorem image_background_without_image :
  forall (s : State) (im : ImageFile) (pf : File) (img : Bitmap),
    processedFile im = Some pf ->
    context2d 0 = true ->
    decode pf = Some img ->
    bgType s = "image"%string ->
    customBgImage s = None ->
    let w := imageWidth img in
    let h := imageHeight img in
    applyChanges (Some im) s
    = exported (effectOver s w h (drawImage FilterNone img 0 0 (blank w h))) s /\
    (selectedEffect s = "none"%string ->
     applyChanges (Some im) s
     = exported (drawImage FilterNone img 0 0 (blank w h)) s) /\
    (0 <= w -> 0 <= h ->
     getImageData 0 0 w h (blank w h) = repeat 0 (Z.to_nat (4 * w * h))).
Proof.
  intros s im pf img Hpf Hctx Hdec Hbg Hnone w h.
  assert (Hrun : applyChanges (Some im) s
                 = exported (effectOver s w h (drawImage FilterNone img 0 0 (blank w h))) s).
  { rewrite (applyChanges_draw im pf s Hpf Hctx).
    now rewrite (draw_after_background s pf img _ _ Hdec
                   (applyBackground_no_image s (sized w h) Hbg Hnone)). }
  split; [exact Hrun |]. split.
  - intros Heff. rewrite Hrun. unfold effectOver. now rewrite Heff.
  - apply getImageData_blank.
Qed.

End RenderPipeline.

(* ================================================================== *)
(** * Properties of the model switch *)
(* ================================================================== *)

Section ModelSwitch.
Import JsNumber App.

(** The handler, by what the [try] block raised. *)
Lemma handleModelChange_fields (env : Env) (newModel : string) (s : State) :
  let s' := handleModelChange env newModel s in
  isModelSwitching s' = false /\ images s' = images s /\
  isLoading s' = isLoading s /\
  match switchAttempt (initializeModel env (Some newModel)) with
  | None => currentModel s' = newModel /\ error s' = None
  | Some (ErrorObject msg) =>
      if includes msg "Falling back"
      then currentModel s' = "briaai/RMBG-1.4"%string /\ error s' = None
      else currentModel s' = currentModel s /\ error s' = Some (mkAppError msg)
  | Some NotAnError =>
      currentModel s' = currentModel s /\
      error s' = Some (mkAppError "Failed to switch models")
  end.
Proof.
  unfold handleModelChange.
  destruct (switchAttempt (initializeModel env (Some newModel))) as [[msg |] |].
  - destruct (includes msg "Falling back"); cbn; auto.
  - cbn; auto.
  - cbn; auto.
Qed.

(** C1, as the code has it.  A switch whose initialisation is rejected
    with an [Error] whose message contains "Falling back" ends on the
    compatibility model with no error recorded and the switching flag
    cleared.  Any other failed initialisation (a false result, another
    error message, a rejection that is no [Error]) leaves the active model
    as it was and records the failure as the error to display. *)
Theorem switch_falls_back_only_on_signal :
  forall (env : Env) (newModel : string) (s : State) (e : Thrown),
    switchAttempt (initializeModel env (Some newModel)) = Some e ->
    let s' := handleModelChange env newModel s in
    isModelSwitching s' = false /\
    (forall msg, e = ErrorObject msg -> includes msg "Falling back" = true ->
       currentModel s' = "briaai/RMBG-1.4"%string /\ error s' = None) /\
    (forall msg, e = ErrorObject msg -> includes msg "Falling back" = false ->
       currentModel s' = currentModel s /\ error s' = Some (mkAppError msg)) /\
    (e = NotAnError ->
       currentModel s' = currentModel s /\
       error s' = Some (mkAppError "Failed to switch models")).
Proof.
  intros env newModel s e Hfail s'.
  pose proof (handleModelChange_fields env newModel s) as (Hsw & _ & _ & Hcase).
  fold s' in Hsw, Hcase. rewrite Hfail in Hcase.
  split; [exact Hsw |]. split; [| split].
  - intros msg -> Hinc. rewrite Hinc in Hcase. exact Hcase.
  - intros msg -> Hinc. rewrite Hinc in Hcase. exact Hcase.
  - intros ->. exact Hcase.
Qed.

End ModelSwitch.

(* ================================================================== *)
(** * Properties of the image collection *)
(* ================================================================== *)

Section ImageCollection.
Import JsNumber App.

(** ** Deletion and late completions *)








(** ** The ingestion loop: every record by its own call *)

Lemma processOne_images (env : Env) (n : nat) (image : ImageFile) (s : State) :
  images (processOne env n image s) = map (recordStep env n image) (images s).
Proof.
  unfold processOne, recordStep.
  destruct (processImages env n [file image]) as [[[| r rest] |] | e];
    cbn; try (symmetry; apply map_id).
  reflexivity.
Qed.

Lemma processOne_console (env : Env) (n : nat) (image : ImageFile) (s : State) :
  console (processOne env n image s)
  = console s ++ match processImages env n [file image] with
                 | Rejected e => [("Error processing image:"%string, e)]
                 | Fulfilled _ => []
                 end.
Proof.
  unfold processOne.
  destruct (processImages env n [file image]) as [[[| r rest] |] | e];
    cbn; now rewrite ?app_nil_r.
Qed.

Lemma processLoop_images (env : Env) (todo : list ImageFile) :
  forall n s,
    images (processLoop env n todo s) = map (recordLoop env n todo) (images s).
Proof.
  induction todo as [| image rest IH]; intros n s; cbn [processLoop].
  - symmetry. apply map_id.
  - rewrite IH, processOne_images, map_map. reflexivity.
Qed.

Lemma processLoop_console (env : Env) (todo : list ImageFile) :
  forall n s,
    console (processLoop env n todo s) = console s ++ rejections env n todo.
Proof.
  induction todo as [| image rest IH]; intros n s; cbn [processLoop rejections].
  - now rewrite app_nil_r.
  - now rewrite IH, processOne_console, app_assoc.
Qed.

Lemma rejections_In (env : Env) (todo : list ImageFile) :
  forall n k image e,
    nth_error todo k = Some image ->
    processImages env (n + k) [file image] = Rejected e ->
    In ("Error processing image:"%string, e) (rejections env n todo).
Proof.
  induction todo as [| head rest IH]; intros n k image e Hnth Hrej.
  - destruct k; discriminate.
  - cbn [rejections]. apply in_or_app. destruct k as [| k]; cbn in Hnth.
    + injection Hnth as ->. rewrite Nat.add_0_r in Hrej. rewrite Hrej.
      left. now left.
    + right. apply (IH (S n) k image e Hnth).
      now replace (S n + k)%nat with (n + S k)%nat by lia.
Qed.

Lemma recordStep_id_file (env : Env) (n : nat) (image rec : ImageFile) :
  id (recordStep env n image rec) = id rec /\
  file (recordStep env n image rec) = file rec.
Proof.
  unfold recordStep.
  destruct (processImages env n [file image]) as [[[| r rest] |] | e]; auto.
  destruct (id rec =? id image); auto.
Qed.

Lemma recordStep_other (env : Env) (n : nat) (image rec : ImageFile) :
  id image <> id rec -> recordStep env n image rec = rec.
Proof.
  intros Hne. unfold recordStep.
  destruct (processImages env n [file image]) as [[[| r rest] |] | e]; auto.
  destruct (Z.eqb_spec (id rec) (id image)); [congruence | reflexivity].
Qed.

Lemma recordLoop_other (env : Env) (todo : list ImageFile) :
  forall n rec,
    (forall image, In image todo -> id image <> id rec) ->
    recordLoop env n todo rec = rec.
Proof.
  induction todo as [| head rest IH]; intros n rec Hne; cbn [recordLoop].
  - reflexivity.
  - rewrite recordStep_other by (apply Hne; now left).
    apply IH. intros image Hin. apply Hne. now right.
Qed.

Lemma recordLoop_id_file (env : Env) (todo : list ImageFile) :
  forall n rec,
    id (recordLoop env n todo rec) = id rec /\
    file (recordLoop env n todo rec) = file rec.
Proof.
  induction todo as [| head rest IH]; intros n rec; cbn [recordLoop]; [auto |].
  destruct (IH (S n) (recordStep env n head rec)) as [-> ->].
  apply recordStep_id_file.
Qed.

(** With pairwise distinct ids in the batch, only the turn of a record's
    own image can change the record. *)
Lemma recordLoop_own (env : Env) (todo : list ImageFile) :
  forall n k image rec,
    NoDup (map id todo) ->
    nth_error todo k = Some image ->
    id rec = id image ->
    processedFile (recordLoop env n todo rec)
    = match processImages env (n + k) [file image] with
      | Fulfilled (Some (r :: _)) => Some r
      | _ => processedFile rec
      end.
Proof.
  induction todo as [| head rest IH]; intros n k image rec Hnodup Hnth Hid.
  - destruct k; discriminate.
  - cbn [map] in Hnodup. apply NoDup_cons_iff in Hnodup.
    destruct Hnodup as [Hhead Hrest]. cbn [recordLoop].
    destruct k as [| k]; cbn in Hnth.
    + injection Hnth as ->. rewrite Nat.add_0_r.
      rewrite recordLoop_other.
      * unfold recordStep.
        destruct (processImages env n [file image]) as [[[| r more] |] | e];
          try reflexivity.
        rewrite Hid, Z.eqb_refl. reflexivity.
      * intros other Hin Heq. apply Hhead.
        destruct (recordStep_id_file env n image rec) as [Hsame _].
        rewrite Hsame, Hid in Heq. rewrite <- Heq. now apply in_map.
    + rewrite recordStep_other.
      * replace (n + S k)%nat with (S n + k)%nat by lia.
        now apply IH.
      * intros Heq. apply Hhead. rewrite Heq, Hid.
        apply in_map. eapply nth_error_In. exact Hnth.
Qed.

(** ** The ids an ingestion assigns *)

Lemma newImagesFrom_nth (env : Env) (acceptedFiles : list File) :
  forall i k f,
    nth_error acceptedFiles k = Some f ->
    nth_error (newImagesFrom env i acceptedFiles) k
    = Some (mkImageFile (DateNow env (i + k) + Z.of_nat (i + k)) f None).
Proof.
  induction acceptedFiles as [| f0 rest IH]; intros i k f Hnth.
  - destruct k; discriminate.
  - destruct k as [| k]; cbn in Hnth |- *.
    + injection Hnth as ->. now rewrite Nat.add_0_r.
    + rewrite (IH (S i) k f Hnth).
      now replace (S i + k)%nat with (i + S k)%nat by lia.
Qed.

Lemma newImagesFrom_ids (env : Env) (acceptedFiles : list File) :
  forall i image,
    In image (newImagesFrom env i acceptedFiles) ->
    exists k, (i <= k)%nat /\ id image = DateNow env k + Z.of_nat k.
Proof.
  induction acceptedFiles as [| f0 rest IH]; intros i image Hin; cbn in Hin.
  - contradiction.
  - destruct Hin as [<- | Hin].
    + exists i. split; [lia | reflexivity].
    + destruct (IH (S i) image Hin) as (k & Hk & Hid).
      exists k. split; [lia | exact Hid].
Qed.

Lemma newImagesFrom_NoDup (env : Env) (acceptedFiles : list File) :
  monotoneClock env ->
  forall i, NoDup (map id (newImagesFrom env i acceptedFiles)).
Proof.
  intros Hclock.
  induction acceptedFiles as [| f0 rest IH]; intros i; cbn.
  - constructor.
  - constructor; [| apply IH].
    intros Hin. apply in_map_iff in Hin. destruct Hin as (image & Hid & Hin).
    destruct (newImagesFrom_ids env rest (S i) image Hin) as (k & Hk & Hidk).
    specialize (Hclock i k ltac:(lia)). lia.
Qed.

(** ** An ingestion that gets to its loop *)

Lemma onDrop_reaches_loop (env : Env) (acceptedFiles : list File) (s : State) :
  images s <> [] \/ initializeModel env None = Fulfilled true ->
  exists s1,
    onDrop env acceptedFiles s = processLoop env 0 (newImages env acceptedFiles) s1 /\
    images s1 = images s ++ newImages env acceptedFiles /\
    console s1 = console s.
Proof.
  intros Hready. unfold onDrop.
  destruct (images s) as [| img0 l] eqn:Hstore.
  - destruct Hready as [Hne | Hinit]; [congruence |].
    cbn [List.length Nat.eqb]. rewrite Hinit. cbn [initAttempt].
    eexists. split; [reflexivity |]. cbn. now rewrite Hstore.
  - cbn [List.length Nat.eqb].
    eexists. split; [reflexivity |]. cbn. now rewrite Hstore.
Qed.

(** C7.  In an ingestion that gets to its loop (the store was not empty,
    or the model initialised), under a clock that never goes back, the
    record of every file of the batch ends as its own segmentation call
    decides and no other call can change that: it holds the result when
    the call gave one, and is left without a result when the call gave
    none or was rejected, in which case the rejection is written to the
    console for that item and the loop goes on. *)
Theorem segmentation_failure_is_confined :
  forall (env : Env) (acceptedFiles : list File) (s : State) (j : nat) (f : File),
    images s <> [] \/ initializeModel env None = Fulfilled true ->
    monotoneClock env ->
    nth_error acceptedFiles j = Some f ->
    let s' := onDrop env acceptedFiles s in
    exists rec,
      nth_error (images s') (List.length (images s) + j) = Some rec /\
      file rec = f /\
      id rec = DateNow env j + Z.of_nat j /\
      match processImages env j [f] with
      | Fulfilled (Some (r :: _)) => processedFile rec = Some r
      | Fulfilled _ => processedFile rec = None
      | Rejected e =>
          processedFile rec = None /\
          In ("Error processing image:"%string, e) (console s')
      end.
Proof.
  intros env acceptedFiles s j f Hready Hclock Hnth s'.
  destruct (onDrop_reaches_loop env acceptedFiles s Hready)
    as (s1 & Hrun & Himages & Hconsole).
  set (added := newImages env acceptedFiles) in *.
  set (image := mkImageFile (DateNow env j + Z.of_nat j) f None).
  assert (Himage : nth_error added j = Some image).
  { exact (newImagesFrom_nth env acceptedFiles 0 j f Hnth). }
  exists (recordLoop env 0 added image).
  destruct (recordLoop_id_file env added 0 image) as [Hid Hfile].
  pose proof (recordLoop_own env added 0 j image image
                (newImagesFrom_NoDup env acceptedFiles Hclock 0) Himage eq_refl)
    as Hown.
  cbn [Nat.add file processedFile image] in Hown.
  split; [| split; [exact Hfile | split; [exact Hid |]]].
  - unfold s'. rewrite Hrun, processLoop_images, Himages, nth_error_map.
    rewrite nth_error_app2 by lia.
    replace (List.length (images s) + j - List.length (images s))%nat with j by lia.
    now rewrite Himage.
  - destruct (processImages env j [f]) as [[[| r rest] |] | e] eqn:Hres;
      try exact Hown.
    split; [exact Hown |].
    unfold s'. rewrite Hrun, processLoop_console. apply in_or_app. right.
    now apply (rejections_In env added 0 j image e Himage).
Qed.

End ImageCollection.

(* ================================================================== *)
(** * The statements on concrete inputs *)
(* ================================================================== *)

Section Instances.
Import Examples.

(** The store conversion on the cases of its definition: ties go to the
    even neighbour, the range is clamped on both sides, NaN is 0. *)
Example ToUint8Clamp_cases :
  let half n := PrimFloat.div (JsNumber.ofZ n) (JsNumber.ofZ 2) in
  map JsNumber.ToUint8Clamp
    [half 1; half 3; half 5; half 509; half 511; JsNumber.ofZ 77;
     JsNumber.ofZ (-3); JsNumber.ofZ 300; PrimFloat.nan;
     PrimFloat.infinity; PrimFloat.neg_infinity;
     PrimFloat.div (JsNumber.ofZ 7) (JsNumber.ofZ 3)]
  = [0; 2; 2; 254; 255; 77; 0; 255; 0; 255; 0; 2].
Proof. vm_compute. reflexivity. Qed.

(** The two effects on one opaque pixel, at the ends and the middle of the
    slider. *)
Example effects_on_one_pixel :
  EditModal.brightness 50 [10; 128; 250; 200] = [10; 128; 250; 200] /\
  EditModal.brightness 100 [10; 128; 250; 200] = [20; 255; 255; 200] /\
  EditModal.brightness 0 [10; 128; 250; 200] = [0; 0; 0; 200] /\
  EditModal.contrast 0 [10; 128; 250; 200] = [10; 128; 250; 200] /\
  EditModal.contrast 100 [10; 128; 250; 200] = [0; 128; 255; 200] /\
  EditModal.contrast 50 [100; 128; 150; 200] = [86; 128; 161; 200].
Proof. vm_compute. repeat split. Qed.

(** The effect reaches the background too: over the colour #804020 with
    brightness 100, the opaque pixel of the cutout and the background pixel
    that shows through the transparent one are both doubled. *)
Example render_brightens_background :
  EditModal.applyChanges (B := Raster.browser) (Some cutout) brightOnColor
  = EditModal.exported (B := Raster.browser)
      (Raster.mkImage 2 1 [(20, 40, 60, 255); (255, 128, 64, 255)]) brightOnColor.
Proof. vm_compute. reflexivity. Qed.

(** The backdrop, one pixel wide, is stretched over both output pixels and
    shows where the cutout is transparent. *)
Example render_stretches_backdrop :
  EditModal.applyChanges (B := Raster.browser) (Some cutout) withBackdrop
  = EditModal.exported (B := Raster.browser)
      (Raster.mkImage 2 1 [(10, 20, 30, 255); (0, 0, 200, 255)]) withBackdrop.
Proof. vm_compute. reflexivity. Qed.

Lemma effect_kind_change_keeps_intensities_witness :
  EditModal.getCurrentEffectValue
    (EditModal.setSelectedEffect "brightness"
       (EditModal.handleEffectValueChange 80
          (EditModal.setSelectedEffect "contrast" brightOnColor)))
  = 100.
Proof.
  destruct (effect_kind_change_keeps_intensities brightOnColor "contrast" 80)
    as (_ & _ & Hback).
  apply Hback. discriminate.
Defined.

Lemma contrast_remaps_and_clamps_witness :
  let data := [0; 128; 255; 77] in
  List.length (EditModal.contrast 100 data) = List.length data /\
  0 <= nth 2 (EditModal.contrast 100 data) 0 <= 255 /\
  nth 2 (EditModal.contrast 100 data) 0
  = (if (2 mod 4 =? 3)%nat then nth 2 data 0
     else EditModal.exactContrast 100 (nth 2 data 0)).
Proof.
  apply (contrast_remaps_and_clamps 100 [0; 128; 255; 77] 2).
  - lia.
  - repeat constructor; lia.
  - cbn. lia.
Defined.

Lemma brightness_scales_and_clamps_witness :
  let data := [0; 128; 255; 77] in
  let c := nth 1 data 0 in
  let out := nth 1 (EditModal.brightness 100 data) 0 in
  List.length (EditModal.brightness 100 data) = List.length data /\
  ((1 mod 4 = 3)%nat -> out = c) /\
  ((1 mod 4 <> 3)%nat ->
     0 <= out <= 255 /\
     Z.abs (50 * out - Z.min (50 * 255) (c * 100)) <= 25 /\
     (100 = 50 -> out = c) /\
     (100 = 100 -> out = Z.min 255 (2 * c)) /\
     (100 = 0 -> out = 0)).
Proof.
  apply (brightness_scales_and_clamps 100 [0; 128; 255; 77] 1).
  - lia.
  - repeat constructor; lia.
  - cbn. lia.
Defined.

Lemma render_steps_in_order_witness :
  EditModal.applyChanges (B := Raster.browser) (Some cutout) brightOnColor
  = EditModal.exported (B := Raster.browser)
      (EditModal.effectOver (B := Raster.browser) brightOnColor 2 1
         (Raster.drawImageAt FilterNone foregroundBitmap 0 0
            (Raster.fillRectImage "#804020" 0 0 2 1 (Raster.blankImage 2 1))))
      brightOnColor.
Proof.
  destruct (render_steps_in_order (B := Raster.browser) brightOnColor cutout
              foreground foregroundBitmap eq_refl eq_refl eq_refl) as [Hcolor _].
  exact (Hcolor eq_refl).
Defined.

(** C3, refuted as stated: with a background file that does not decode the
    render never finishes, so there is no state it ends in. *)
Lemma undecodable_background_never_completes :
  ~ exists s',
      EditModal.applyChanges (B := Raster.browser) (Some cutout) withBroken = Done s'.
Proof. intros [s' H]. vm_compute in H. discriminate H. Qed.

Lemma undecodable_background_suspends_render_witness :
  EditModal.applyChanges (B := Raster.browser) (Some cutout) withBroken = Suspended.
Proof.
  exact (undecodable_background_suspends_render (B := Raster.browser)
           withBroken cutout foreground broken
           eq_refl eq_refl eq_refl eq_refl eq_refl).
Defined.

Lemma image_background_without_image_witness :
  EditModal.applyChanges (B := Raster.browser) (Some cutout) imageNotChosen
  = EditModal.exported (B := Raster.browser)
      (Raster.drawImageAt FilterNone foregroundBitmap 0 0 (Raster.blankImage 2 1))
      imageNotChosen.
Proof.
  destruct (image_background_without_image (B := Raster.browser) imageNotChosen
              cutout foreground foregroundBitmap
              eq_refl eq_refl eq_refl eq_refl eq_refl) as (_ & Hnone & _).
  exact (Hnone eq_refl).
Defined.

(** C1, refuted as stated: a switch to the quality model whose
    initialisation returns false ends with the failure on display, not in
    the ready state; the active model is the compatibility model only
    because it was active before. *)
Lemma failed_switch_shows_error :
  let s' := App.handleModelChange requestedModelFails "Xenova/modnet" mounted in
  App.error s' = Some (App.mkAppError "Failed to initialize new model") /\
  App.dropzonePanel s' = App.ErrorPanel "Failed to initialize new model" false /\
  ~ (App.currentModel s' = "briaai/RMBG-1.4"%string /\ App.error s' = None).
Proof.
  cbv zeta. split; [reflexivity |]. split; [reflexivity |].
  intros [_ Herr]. discriminate Herr.
Qed.

Lemma switch_falls_back_only_on_signal_witness :
  let s' := App.handleModelChange requestedModelFallsBack "Xenova/modnet" mounted in
  App.currentModel s' = "briaai/RMBG-1.4"%string /\ App.error s' = None /\
  App.isModelSwitching s' = false.
Proof.
  destruct (switch_falls_back_only_on_signal requestedModelFallsBack "Xenova/modnet"
              mounted
              (App.ErrorObject "WebGPU model failed. Falling back to briaai/RMBG-1.4")
              eq_refl) as (Hsw & Hfall & _).
  destruct (Hfall _ eq_refl eq_refl) as [Hmodel Herr].
  cbv zeta. auto.
Defined.

(** C4 on the code: two files dropped when the clock reads 1000 and one
    more when it reads 1001 give the second and the third record the same
    id. *)
Lemma ingestion_ids_collide :
  let s1 := App.onDrop (calm 1000 (fun _ => App.Fulfilled true)) [photo; photoB] mounted in
  let s2 := App.onDrop (calm 1001 (fun _ => App.Fulfilled true)) [photoC] s1 in
  App.ids s2 = [1000; 1001; 1001] /\ ~ NoDup (App.ids s2).
Proof.
  cbv zeta. split; [reflexivity |].
  change (~ NoDup [1000; 1001; 1001]).
  intros Hnd. inversion Hnd as [| x l Hx Hl]; subst.
  inversion Hl as [| y l' Hy _]; subst. apply Hy. now left.
Qed.

Lemma segmentation_failure_is_confined_witness :
  let s' := App.onDrop secondCallRejected [photo; photoB; photoC] mounted in
  exists rec,
    nth_error (App.images s') (List.length (App.images mounted) + 2) = Some rec /\
    file rec = photoC /\
    id rec = 1000 + Z.of_nat 2 /\
    processedFile rec = Some foreground.
Proof.
  apply (segmentation_failure_is_confined secondCallRejected
           [photo; photoB; photoC] mounted 2 photoC).
  - right. reflexivity.
  - intros i j _. cbn. lia.
  - reflexivity.
Defined.

(** In the same ingestion the rejected item is the only one left without a
    result, and the console has its line. *)
Example rejected_item_alone_unsegmented :
  let s' := App.onDrop secondCallRejected [photo; photoB; photoC] mounted in
  map processedFile (App.images s') = [Some foreground; None; Some foreground] /\
  App.console s'
  = [("Error processing image:"%string, App.ErrorObject "corrupt image")].
Proof. split; reflexivity. Qed.

End Instances.

(* ================================================================== *)
(** * Further properties of the handlers *)
(* ================================================================== *)

Section Further.
Import Examples.

Lemma newImagesFrom_nth_id (env : App.Env) (acceptedFiles : list File) :
  forall i k image,
    nth_error (App.newImagesFrom env i acceptedFiles) k = Some image ->
    id image = App.DateNow env (i + k) + Z.of_nat (i + k).
Proof.
  induction acceptedFiles as [| f0 rest IH]; intros i k image Hnth.
  - destruct k; discriminate.
  - destruct k as [| k]; cbn in Hnth.
    + injection Hnth as <-. now rewrite Nat.add_0_r.
    + rewrite (IH (S i) k image Hnth).
      now replace (S i + k)%nat with (i + S k)%nat by lia.
Qed.

(** X1.  Within one ingestion, under a clock that never goes back, the
    ids grow strictly with the position of the file in the batch. *)
Theorem ingestion_ids_increase_within_batch :
  forall (env : App.Env) (acceptedFiles : list File) (j k : nat) (a b : ImageFile),
    App.monotoneClock env ->
    (j < k)%nat ->
    nth_error (App.newImages env acceptedFiles) j = Some a ->
    nth_error (App.newImages env acceptedFiles) k = Some b ->
    id a < id b.
Proof.
  intros env acceptedFiles j k a b Hclock Hjk Ha Hb.
  rewrite (newImagesFrom_nth_id env acceptedFiles 0 j a Ha).
  rewrite (newImagesFrom_nth_id env acceptedFiles 0 k b Hb).
  cbn [Nat.add]. specialize (Hclock j k ltac:(lia)). lia.
Qed.

Lemma ingestion_ids_increase_within_batch_witness :
  id (mkImageFile (1000 + 0) photo None) < id (mkImageFile (1000 + 2) photoC None).
Proof.
  apply (ingestion_ids_increase_within_batch secondCallRejected
           [photo; photoB; photoC] 0 2).
  - intros i j _. cbn. lia.
  - lia.
  - reflexivity.
  - reflexivity.
Defined.

(** X2.  An ingestion into an empty store whose model initialisation
    fails drops the whole batch: the store stays empty, the failure is the
    error on display and the loading flag is cleared. *)
Theorem failed_initialisation_empties_store :
  forall (env : App.Env) (acceptedFiles : list File) (s : App.State) (e : App.Thrown),
    App.images s = [] ->
    App.initAttempt (App.initializeModel env None) = Some e ->
    let s' := App.onDrop env acceptedFiles s in
    App.images s' = [] /\
    App.isLoading s' = false /\
    App.error s'
    = Some (App.mkAppError match e with
                           | App.ErrorObject m => m
                           | App.NotAnError => "An unknown error occurred"%string
                           end).
Proof.
  intros env acceptedFiles s e Hempty Hinit s'. unfold s', App.onDrop.
  rewrite Hempty. cbn [List.length Nat.eqb]. rewrite Hinit.
  repeat split.
Qed.

Lemma failed_initialisation_empties_store_witness :
  let env := calm 1000 (fun _ => App.Fulfilled false) in
  let s' := App.onDrop env [photo; photoB] mounted in
  App.images s' = [] /\
  App.isLoading s' = false /\
  App.error s'
  = Some (App.mkAppError "Failed to initialize background removal model").
Proof.
  exact (failed_initialisation_empties_store
           (calm 1000 (fun _ => App.Fulfilled false)) [photo; photoB] mounted
           (App.ErrorObject "Failed to initialize background removal model")
           eq_refl eq_refl).
Defined.

(** X3.  Moving the slider while blur, brightness or contrast is selected
    makes the slider show the new value; with any other selection the
    state is left as it is. *)
Theorem slider_shows_what_was_set :
  forall (s : EditModal.State) (value : Z),
    (In (EditModal.selectedEffect s) ["blur"; "brightness"; "contrast"]%string ->
     EditModal.getCurrentEffectValue (EditModal.handleEffectValueChange value s)
     = value) /\
    (~ In (EditModal.selectedEffect s) ["blur"; "brightness"; "contrast"]%string ->
     EditModal.handleEffectValueChange value s = s).
Proof.
  intros s value.
  unfold EditModal.handleEffectValueChange, EditModal.getCurrentEffectValue.
  split.
  - intros [E | [E | [E | []]]]; symmetry in E; rewrite E; cbn; rewrite E;
      reflexivity.
  - intros Hnot.
    destruct (String.eqb_spec (EditModal.selectedEffect s) "blur") as [E | _].
    { exfalso. apply Hnot. rewrite E. cbn. auto. }
    destruct (String.eqb_spec (EditModal.selectedEffect s) "brightness") as [E | _].
    { exfalso. apply Hnot. rewrite E. cbn. auto. }
    destruct (String.eqb_spec (EditModal.selectedEffect s) "contrast") as [E | _].
    { exfalso. apply Hnot. rewrite E. cbn. auto. }
    reflexivity.
Qed.

(** X5.  A switch whose initialisation succeeds makes the requested model
    the active one, with no error and the switching flag cleared; the
    image list is not touched by a switch. *)
Theorem successful_switch_activates_model :
  forall (env : App.Env) (newModel : string) (s : App.State),
    App.initializeModel env (Some newModel) = App.Fulfilled true ->
    let s' := App.handleModelChange env newModel s in
    App.currentModel s' = newModel /\ App.error s' = None /\
    App.isModelSwitching s' = false /\ App.images s' = App.images s.
Proof.
  intros env newModel s Hinit s'.
  pose proof (handleModelChange_fields env newModel s) as (Hsw & Himg & _ & Hcase).
  fold s' in Hsw, Himg, Hcase. rewrite Hinit in Hcase. cbn in Hcase.
  tauto.
Qed.

Lemma successful_switch_activates_model_witness :
  let env := calm 1000 (fun _ => App.Fulfilled true) in
  let s' := App.handleModelChange env "Xenova/modnet" mounted in
  App.currentModel s' = "Xenova/modnet"%string /\ App.error s' = None /\
  App.isModelSwitching s' = false /\ App.images s' = App.images mounted.
Proof.
  exact (successful_switch_activates_model
           (calm 1000 (fun _ => App.Fulfilled true)) "Xenova/modnet" mounted eq_refl).
Defined.

End Further.

(* ================================================================== *)
(** * What a render depends on and what it changes *)
(* ================================================================== *)

Section RenderFrame.
Import JsNumber EditModal.
Context {B : Browser}.

Lemma draw_congruence (s1 s2 : State) :
  (forall c, applyBackground s1 c = applyBackground s2 c) ->
  (forall c, applyEffects s1 c = applyEffects s2 c) ->
  forall pf c, draw s1 pf c = draw s2 pf c.
Proof.
  intros Hbg Heff pf c. unfold draw, bind.
  destruct (await (loadImage pf) c) as [[img c1] |]; [| reflexivity].
  destruct (setWidth (imageWidth img) c1) as [[u2 c2] |]; [| reflexivity].
  destruct (setHeight (imageHeight img) c2) as [[u3 c3] |]; [| reflexivity].
  rewrite Hbg.
  destruct (applyBackground s2 c3) as [[u4 c4] |]; [| reflexivity].
  destruct (ctxDrawImage img 0 0 c4) as [[u5 c5] |]; [| reflexivity].
  apply Heff.
Qed.

Lemma applyChanges_congruence (s1 s2 : State) (im : option ImageFile) :
  (forall pf c, draw s1 pf c = draw s2 pf c) ->
  exportUrl s1 = exportUrl s2 ->
  exportedUrl (applyChanges im s1) = exportedUrl (applyChanges im s2).
Proof.
  intros Hdraw Hurl. unfold applyChanges.
  destruct im as [im |]; [| cbn; now rewrite Hurl].
  destruct (processedFile im) as [pf |]; [| cbn; now rewrite Hurl].
  destruct (negb (context2d 0)); [cbn; now rewrite Hurl |].
  rewrite Hdraw.
  destruct (draw s2 pf createCanvas) as [[u canvas] |]; reflexivity.
Qed.

(** The effect step reads the intensity of the selected kind only. *)
Lemma applyEffects_other_intensity (s s' : State) :
  selectedEffect s' = selectedEffect s ->
  (selectedEffect s = "blur"%string -> blurValue s' = blurValue s) ->
  (selectedEffect s = "brightness"%string -> brightnessValue s' = brightnessValue s) ->
  (selectedEffect s = "contrast"%string -> contrastValue s' = contrastValue s) ->
  forall c, applyEffects s' c = applyEffects s c.
Proof.
  intros Hsel Hb Hr Hc c. unfold applyEffects, applyBlur. rewrite Hsel.
  destruct (String.eqb_spec (selectedEffect s) "none"); [reflexivity |].
  destruct (String.eqb_spec (selectedEffect s) "blur") as [E | _].
  { now rewrite (Hb E). }
  destruct (String.eqb_spec (selectedEffect s) "brightness") as [E | _].
  { now rewrite (Hr E). }
  destruct (String.eqb_spec (selectedEffect s) "contrast") as [E | _].
  { now rewrite (Hc E). }
  reflexivity.
Qed.

(** The background step reads the colour under a colour background only,
    and the chosen image under an image background only. *)
Lemma applyBackground_other_setting (s s' : State) :
  bgType s' = bgType s ->
  (bgType s = "color"%string -> bgColor s' = bgColor s) ->
  (bgType s <> "color"%string -> bgType s = "image"%string ->
   customBgImage s' = customBgImage s) ->
  forall c, applyBackground s' c = applyBackground s c.
Proof.
  intros Hty Hcol Himg c. unfold applyBackground. rewrite Hty.
  destruct (String.eqb_spec (bgType s) "color") as [E | Hne].
  { now rewrite (Hcol E). }
  destruct (String.eqb_spec (bgType s) "image") as [E | _]; [| reflexivity].
  now rewrite (Himg Hne E).
Qed.

(** X4.  A render changes no cell of the edit configuration but
    [exportUrl]: whatever state it ends in is the state it started from
    with a new export URL, and when there is no image, no segmented file
    or no 2D context it ends in the very state it started from. *)
Theorem render_changes_only_exportUrl :
  forall (im : option ImageFile) (s : State),
    (forall s', applyChanges im s = Done s' ->
       s' = setExportUrl (exportUrl s') s) /\
    (im = None -> applyChanges im s = Done s) /\
    (forall image, im = Some image -> processedFile image = None ->
       applyChanges im s = Done s) /\
    (context2d 0 = false -> applyChanges im s = Done s).
Proof.
  intros im s. unfold applyChanges. repeat split.
  - intros s' Hrun.
    destruct im as [image |];
      [destruct (processedFile image) as [pf |];
       [destruct (negb (context2d 0));
        [| destruct (draw s pf createCanvas) as [[u canvas] |];
           [| discriminate]] |] |];
      injection Hrun as <-; destruct s; reflexivity.
  - intros ->. reflexivity.
  - intros image -> ->. reflexivity.
  - intros ->. destruct im as [image |]; [| reflexivity].
    now destruct (processedFile image).
Qed.

(** X6.  What a render exports does not depend on settings that are not
    in use: the intensity of an effect kind that is not the selected one,
    the colour while the background is not the colour background, the
    chosen image while the background is the colour background. *)
Theorem render_ignores_unused_settings :
  forall (im : option ImageFile) (s : State) (v : Z) (colour : string)
         (chosen : option File),
    (selectedEffect s <> "blur"%string ->
     exportedUrl (applyChanges im (setBlurValue v s))
     = exportedUrl (applyChanges im s)) /\
    (selectedEffect s <> "brightness"%string ->
     exportedUrl (applyChanges im (setBrightnessValue v s))
     = exportedUrl (applyChanges im s)) /\
    (selectedEffect s <> "contrast"%string ->
     exportedUrl (applyChanges im (setContrastValue v s))
     = exportedUrl (applyChanges im s)) /\
    (bgType s <> "color"%string ->
     exportedUrl (applyChanges im (setBgColor colour s))
     = exportedUrl (applyChanges im s)) /\
    (bgType s = "color"%string ->
     exportedUrl (applyChanges im (setCustomBgImage chosen s))
     = exportedUrl (applyChanges im s)).
Proof.
  intros im s v colour chosen. repeat split; intros Hunused;
    (apply applyChanges_congruence; [| reflexivity]);
    apply draw_congruence;
    try (apply applyEffects_other_intensity; cbn; congruence);
    try (apply applyBackground_other_setting; cbn; congruence).
Qed.

End RenderFrame.

(* ================================================================== *)
(** * How the effects move tones *)
(* ================================================================== *)

Section EffectTones.
Import JsNumber EditModal.

Lemma nondecreasing_nth (l : list Z) :
  nondecreasing l = true ->
  forall k, (S k < List.length l)%nat -> nth k l 0 <= nth (S k) l 0.
Proof.
  induction l as [| a rest IH]; intros Hsorted k Hk; [cbn in Hk; lia |].
  destruct rest as [| b rest']; [cbn in Hk; lia |].
  cbn [nondecreasing] in Hsorted. apply andb_true_iff in Hsorted.
  destruct Hsorted as [Hab Hrest].
  destruct k as [| k].
  - cbn. lia.
  - change (nth k (b :: rest') 0 <= nth (S k) (b :: rest') 0).
    apply IH; [exact Hrest | cbn in Hk |- *; lia].
Qed.

Lemma pointwiseLe_nth (l1 : list Z) :
  forall l2, pointwiseLe l1 l2 = true ->
  forall k, (k < List.length l1)%nat -> (k < List.length l2)%nat ->
    nth k l1 0 <= nth k l2 0.
Proof.
  induction l1 as [| a r1 IH]; intros [| b r2] Hle k Hk1 Hk2;
    cbn in Hk1, Hk2; try lia.
  cbn [pointwiseLe] in Hle. apply andb_true_iff in Hle. destruct Hle as [Hab Hrest].
  destruct k as [| k]; cbn; [lia |].
  apply IH; [exact Hrest | lia | lia].
Qed.

Lemma rowsRise_nth (rows : list (list Z)) :
  rowsRise rows = true ->
  forall k, (S k < List.length rows)%nat ->
    pointwiseLe (nth k rows []) (nth (S k) rows []) = true.
Proof.
  induction rows as [| r1 rest IH]; intros Hrise k Hk; [cbn in Hk; lia |].
  destruct rest as [| r2 rest']; [cbn in Hk; lia |].
  cbn [rowsRise] in Hrise. apply andb_true_iff in Hrise.
  destruct Hrise as [H12 Hrest].
  destruct k as [| k]; [exact H12 |].
  change (pointwiseLe (nth k (r2 :: rest') []) (nth (S k) (r2 :: rest') []) = true).
  apply IH; [exact Hrest | cbn in Hk |- *; lia].
Qed.

Lemma upto_length (n : nat) : List.length (upto n) = n.
Proof. unfold upto. now rewrite length_map, length_seq. Qed.

Lemma upto_map_nth {A : Type} (f : Z -> A) (n k : nat) (d : A) :
  (k < n)%nat -> nth k (map f (upto n)) d = f (Z.of_nat k).
Proof.
  intros Hk. unfold upto. rewrite map_map.
  rewrite (nth_indep _ d (f (Z.of_nat 0))) by now rewrite length_map, length_seq.
  rewrite (map_nth (fun i => f (Z.of_nat i)) (seq 0 n) 0%nat k).
  now rewrite seq_nth.
Qed.

Lemma toneTable_entry (f : Z -> Z -> Z) (v c : nat) :
  (v < 101)%nat -> (c < 256)%nat ->
  nth c (nth v (toneTable f) []) 0 = f (Z.of_nat v) (Z.of_nat c).
Proof.
  intros Hv Hc. unfold toneTable, intensities, channels.
  rewrite (upto_map_nth (fun v => map (f v) (upto 256)) 101 v [] Hv).
  now apply upto_map_nth.
Qed.

Lemma toneTable_row_length (f : Z -> Z -> Z) (v : nat) :
  (v < 101)%nat -> List.length (nth v (toneTable f) []) = 256%nat.
Proof.
  intros Hv. unfold toneTable, intensities, channels.
  rewrite (upto_map_nth (fun v => map (f v) (upto 256)) 101 v [] Hv).
  now rewrite length_map, upto_length.
Qed.

(** A table that rises gives the two one-step inequalities. *)
Lemma toneTableRises_steps (f : Z -> Z -> Z) :
  toneTableRises f = true ->
  forall v c, 0 <= v <= 100 -> 0 <= c <= 255 ->
    (c < 255 -> f v c <= f v (c + 1)) /\
    (v < 100 -> f v c <= f (v + 1) c).
Proof.
  unfold toneTableRises. cbv zeta. intros Hrises v c Hv Hc.
  apply andb_true_iff in Hrises. destruct Hrises as [Hrows Hcols].
  rewrite forallb_forall in Hrows.
  assert (Hlen : List.length (toneTable f) = 101%nat).
  { unfold toneTable, intensities. now rewrite length_map, upto_length. }
  split.
  - intros Hc1.
    assert (Hrow : nondecreasing (nth (Z.to_nat v) (toneTable f) []) = true).
    { apply Hrows, nth_In. rewrite Hlen. lia. }
    pose proof (nondecreasing_nth _ Hrow (Z.to_nat c)) as Hstep.
    rewrite toneTable_row_length in Hstep by lia.
    specialize (Hstep ltac:(lia)).
    rewrite !toneTable_entry in Hstep by lia.
    replace (Z.of_nat (Z.to_nat v)) with v in Hstep by lia.
    replace (Z.of_nat (Z.to_nat c)) with c in Hstep by lia.
    replace (Z.of_nat (S (Z.to_nat c))) with (c + 1) in Hstep by lia.
    exact Hstep.
  - intros Hv1.
    pose proof (rowsRise_nth _ Hcols (Z.to_nat v) ltac:(rewrite Hlen; lia)) as Hpair.
    pose proof (pointwiseLe_nth _ _ Hpair (Z.to_nat c)) as Hstep.
    rewrite !toneTable_row_length in Hstep by lia.
    specialize (Hstep ltac:(lia) ltac:(lia)).
    rewrite !toneTable_entry in Hstep by lia.
    replace (Z.of_nat (Z.to_nat v)) with v in Hstep by lia.
    replace (Z.of_nat (Z.to_nat c)) with c in Hstep by lia.
    replace (Z.of_nat (S (Z.to_nat v))) with (v + 1) in Hstep by lia.
    exact Hstep.
Qed.

(** One-step inequalities add up along an interval. *)
Lemma rises_on_interval (g : Z -> Z) (hi : Z) :
  (forall x, 0 <= x < hi -> g x <= g (x + 1)) ->
  forall a b, 0 <= a <= b -> b <= hi -> g a <= g b.
Proof.
  intros Hstep a b Hab Hb.
  replace b with (a + Z.of_nat (Z.to_nat (b - a))) by lia.
  assert (Hn : a + Z.of_nat (Z.to_nat (b - a)) <= hi) by lia.
  revert Hn. generalize (Z.to_nat (b - a)) as n.
  induction n as [| n IH]; intros Hn.
  - replace (a + Z.of_nat 0) with a by lia. lia.
  - replace (a + Z.of_nat (S n)) with (a + Z.of_nat n + 1) by lia.
    specialize (IH ltac:(lia)).
    specialize (Hstep (a + Z.of_nat n) ltac:(lia)). lia.
Qed.

Lemma brightnessChannel_rises : toneTableRises brightnessChannel = true.
Proof. vm_compute. reflexivity. Qed.

Lemma brightnessChannel_monotone (v1 v2 c1 c2 : Z) :
  0 <= v1 <= v2 -> v2 <= 100 -> 0 <= c1 <= c2 -> c2 <= 255 ->
  brightnessChannel v1 c1 <= brightnessChannel v2 c2.
Proof.
  intros Hv Hv2 Hc Hc2.
  pose proof (toneTableRises_steps _ brightnessChannel_rises) as Hsteps.
  transitivity (brightnessChannel v1 c2).
  - apply (rises_on_interval (brightnessChannel v1) 255); try lia.
    intros x Hx. apply (Hsteps v1 x); lia.
  - apply (rises_on_interval (fun v => brightnessChannel v c2) 100); try lia.
    intros x Hx. apply (Hsteps x c2); lia.
Qed.

Lemma brightnessChannel_direction (v c : Z) :
  0 <= v <= 100 -> 0 <= c <= 255 ->
  (v <= 50 -> brightnessChannel v c <= c) /\
  (50 <= v -> c <= brightnessChannel v c).
Proof.
  intros Hv Hc.
  destruct (brightnessChannel_nearest v c Hv Hc) as [Hrange Hnear].
  split; intros Hside.
  - assert (c * v <= c * 50) by (apply Z.mul_le_mono_nonneg_l; lia). lia.
  - assert (c * 50 <= c * v) by (apply Z.mul_le_mono_nonneg_l; lia). lia.
Qed.

(** The exact contrast remap: 128 is fixed, values move away from 128,
    intensity 0 changes nothing, the remap rises with the channel value,
    and a higher intensity moves a value further from 128. *)
Lemma exactContrast_table :
  everywhere (fun v c =>
    let out := exactContrast v c in
    ((c <? 128) || (c <=? out)) && ((128 <? c) || (out <=? c))
    && (negb (v =? 0) || (out =? c))
    && ((c =? 255) || (out <=? exactContrast v (c + 1)))
    && ((v =? 100)
        || (if 128 <=? c then out <=? exactContrast (v + 1) c
            else exactContrast (v + 1) c <=? out))) = true.
Proof. vm_compute. reflexivity. Qed.

Lemma exactContrast_facts (v c : Z) :
  0 <= v <= 100 -> 0 <= c <= 255 ->
  (128 <= c -> c <= exactContrast v c) /\
  (c <= 128 -> exactContrast v c <= c) /\
  (v = 0 -> exactContrast v c = c) /\
  (c < 255 -> exactContrast v c <= exactContrast v (c + 1)) /\
  (v < 100 -> 128 <= c -> exactContrast v c <= exactContrast (v + 1) c) /\
  (v < 100 -> c < 128 -> exactContrast (v + 1) c <= exactContrast v c).
Proof.
  intros Hv Hc.
  pose proof (everywhere_sound _ exactContrast_table v c Hv Hc) as H.
  cbv zeta in H. rewrite !andb_true_iff, !orb_true_iff, negb_true_iff in H.
  destruct H as [[[[H1 H2] H3] H4] H5].
  repeat split.
  - intros Hge. destruct H1 as [H1 | H1]; lia.
  - intros Hle. destruct H2 as [H2 | H2]; lia.
  - intros ->. destruct H3 as [H3 | H3]; lia.
  - intros Hlt. destruct H4 as [H4 | H4]; lia.
  - intros Hlt Hge. destruct H5 as [H5 | H5]; [lia |].
    destruct (128 <=? c) eqn:E; lia.
  - intros Hlt Hc128. destruct H5 as [H5 | H5]; [lia |].
    destruct (128 <=? c) eqn:E; lia.
Qed.

Lemma brightness_colour_entry (v : Z) (data : Uint8ClampedArray) (i : nat) :
  (i < List.length data)%nat -> (i mod 4 <> 3)%nat ->
  nth i (brightness v data) 0 = brightnessChannel v (nth i data 0).
Proof.
  intros Hi Hcolour. rewrite brightness_mapRGB, mapRGB_nth by exact Hi.
  now replace (i mod 4 =? 3)%nat with false by (symmetry; now apply Nat.eqb_neq).
Qed.

Lemma contrast_colour_entry (v : Z) (data : Uint8ClampedArray) (i : nat) :
  0 <= v <= 100 -> Forall (fun c => 0 <= c <= 255) data ->
  (i < List.length data)%nat -> (i mod 4 <> 3)%nat ->
  nth i (contrast v data) 0 = exactContrast v (nth i data 0).
Proof.
  intros Hv Hdata Hi Hcolour. rewrite contrast_mapRGB, mapRGB_nth by exact Hi.
  replace (i mod 4 =? 3)%nat with false by (symmetry; now apply Nat.eqb_neq).
  apply contrastChannel_exact; [exact Hv | now apply Forall_nth_range].
Qed.

Lemma exactContrast_monotone (v c1 c2 : Z) :
  0 <= v <= 100 -> 0 <= c1 <= c2 -> c2 <= 255 ->
  exactContrast v c1 <= exactContrast v c2.
Proof.
  intros Hv Hc Hc2.
  apply (rises_on_interval (exactContrast v) 255); try lia.
  intros x Hx.
  destruct (exactContrast_facts v x Hv ltac:(lia)) as (_ & _ & _ & Hstep & _).
  apply Hstep. lia.
Qed.

Lemma exactContrast_spreads (v1 v2 c : Z) :
  0 <= v1 <= v2 -> v2 <= 100 -> 0 <= c <= 255 ->
  (128 <= c -> exactContrast v1 c <= exactContrast v2 c) /\
  (c <= 128 -> exactContrast v2 c <= exactContrast v1 c).
Proof.
  intros Hv Hv2 Hc. split; intros Hside.
  - apply (rises_on_interval (fun v => exactContrast v c) 100); try lia.
    intros x Hx.
    destruct (exactContrast_facts x c ltac:(lia) Hc) as (_ & _ & _ & _ & Hmore & _).
    apply Hmore; lia.
  - destruct (Z.eq_dec c 128) as [-> | Hne].
    + destruct (exactContrast_facts v1 128 ltac:(lia) ltac:(lia)) as (Ha & Hb & _).
      destruct (exactContrast_facts v2 128 ltac:(lia) ltac:(lia)) as (Hc' & Hd & _).
      lia.
    + enough (- exactContrast v1 c <= - exactContrast v2 c) by lia.
      apply (rises_on_interval (fun v => - exactContrast v c) 100); try lia.
      intros x Hx.
      destruct (exactContrast_facts x c ltac:(lia) Hc) as (_ & _ & _ & _ & _ & Hdown).
      specialize (Hdown ltac:(lia) ltac:(lia)). lia.
Qed.

(** X7.  Brightness never inverts tones and follows the slider: of two
    colour entries of a buffer the darker one stays the darker (or equal),
    a higher slider value never darkens an entry, values up to 50 never
    brighten one and values from 50 on never darken one. *)
Theorem brightness_keeps_tone_order :
  forall (v v' : Z) (data : Uint8ClampedArray) (i j : nat),
    0 <= v <= v' -> v' <= 100 ->
    Forall (fun c => 0 <= c <= 255) data ->
    (i < List.length data)%nat -> (j < List.length data)%nat ->
    (i mod 4 <> 3)%nat -> (j mod 4 <> 3)%nat ->
    (nth i data 0 <= nth j data 0 ->
     nth i (brightness v data) 0 <= nth j (brightness v data) 0) /\
    nth i (brightness v data) 0 <= nth i (brightness v' data) 0 /\
    (v <= 50 -> nth i (brightness v data) 0 <= nth i data 0) /\
    (50 <= v -> nth i data 0 <= nth i (brightness v data) 0).
Proof.
  intros v v' data i j Hv Hv' Hdata Hi Hj Hci Hcj.
  pose proof (Forall_nth_range data i Hdata Hi) as Hri.
  pose proof (Forall_nth_range data j Hdata Hj) as Hrj.
  rewrite !brightness_colour_entry by assumption.
  destruct (brightnessChannel_direction v (nth i data 0) ltac:(lia) Hri)
    as [Hdown Hup].
  split; [| split; [| split; assumption]].
  - intros Hle. apply brightnessChannel_monotone; lia.
  - apply brightnessChannel_monotone; lia.
Qed.

(** X8.  Contrast spreads tones around mid-grey without inverting them:
    an entry at 128 stays at 128, an entry above 128 never goes down and
    one below never goes up, the darker of two colour entries stays the
    darker (or equal), a higher slider value moves an entry further from
    128 (or leaves it), and the slider at 0 changes nothing. *)
Theorem contrast_spreads_tones :
  forall (v v' : Z) (data : Uint8ClampedArray) (i j : nat),
    0 <= v <= v' -> v' <= 100 ->
    Forall (fun c => 0 <= c <= 255) data ->
    (i < List.length data)%nat -> (j < List.length data)%nat ->
    (i mod 4 <> 3)%nat -> (j mod 4 <> 3)%nat ->
    (nth i data 0 <= nth j data 0 ->
     nth i (contrast v data) 0 <= nth j (contrast v data) 0) /\
    (128 <= nth i data 0 ->
     nth i data 0 <= nth i (contrast v data) 0 <= nth i (contrast v' data) 0) /\
    (nth i data 0 <= 128 ->
     nth i (contrast v' data) 0 <= nth i (contrast v data) 0 <= nth i data 0) /\
    (v = 0 -> nth i (contrast v data) 0 = nth i data 0).
Proof.
  intros v v' data i j Hv Hv' Hdata Hi Hj Hci Hcj.
  pose proof (Forall_nth_range data i Hdata Hi) as Hri.
  pose proof (Forall_nth_range data j Hdata Hj) as Hrj.
  rewrite !contrast_colour_entry by (assumption || lia).
  destruct (exactContrast_facts v (nth i data 0) ltac:(lia) Hri)
    as (Hup & Hdown & Hzero & _).
  destruct (exactContrast_spreads v v' (nth i data 0) Hv Hv' Hri) as [Hmore Hless].
  split; [| split; [| split; [| exact Hzero]]].
  - intros Hle. apply exactContrast_monotone; lia.
  - intros Hge. split; [now apply Hup | now apply Hmore].
  - intros Hle. split; [now apply Hless | now apply Hdown].
Qed.

End EffectTones.

(* ================================================================== *)
(** * Invariants of the image list under ingestion *)
(* ================================================================== *)

Section StoreInvariants.
Import JsNumber App.

Lemma newImagesFrom_files (env : Env) (acceptedFiles : list File) :
  forall i, map file (newImagesFrom env i acceptedFiles) = acceptedFiles.
Proof.
  induction acceptedFiles as [| f rest IH]; intros i; cbn; [reflexivity |].
  now rewrite IH.
Qed.

Lemma recordLoop_ids (env : Env) (n : nat) (todo l : list ImageFile) :
  map id (map (recordLoop env n todo) l) = map id l.
Proof.
  rewrite map_map. apply map_ext. intros rec.
  now destruct (recordLoop_id_file env todo n rec).
Qed.

Lemma recordLoop_files (env : Env) (n : nat) (todo l : list ImageFile) :
  map file (map (recordLoop env n todo) l) = map file l.
Proof.
  rewrite map_map. apply map_ext. intros rec.
  now destruct (recordLoop_id_file env todo n rec).
Qed.

Lemma recordStep_keeps_result (env : Env) (n : nat) (image rec : ImageFile) :
  processedFile rec <> None -> processedFile (recordStep env n image rec) <> None.
Proof.
  intros Hsome. unfold recordStep.
  destruct (processImages env n [file image]) as [[[| r rest] |] | e]; auto.
  destruct (id rec =? id image); [cbn; discriminate | exact Hsome].
Qed.

Lemma recordLoop_keeps_result (env : Env) (todo : list ImageFile) :
  forall n rec,
    processedFile rec <> None -> processedFile (recordLoop env n todo rec) <> None.
Proof.
  induction todo as [| image rest IH]; intros n rec Hsome; cbn [recordLoop].
  - exact Hsome.
  - apply IH. now apply recordStep_keeps_result.
Qed.

(** The list after an ingestion that gets to its loop. *)
Lemma onDrop_images (env : Env) (acceptedFiles : list File) (s : State) :
  images s <> [] \/ initializeModel env None = Fulfilled true ->
  images (onDrop env acceptedFiles s)
  = map (recordLoop env 0 (newImages env acceptedFiles))
        (images s ++ newImages env acceptedFiles).
Proof.
  intros Hready.
  destruct (onDrop_reaches_loop env acceptedFiles s Hready) as (s1 & -> & Himg & _).
  now rewrite processLoop_images, Himg.
Qed.

Lemma onDrop_ids_files (env : Env) (acceptedFiles : list File) (s : State) :
  images s <> [] \/ initializeModel env None = Fulfilled true ->
  ids (onDrop env acceptedFiles s) = ids s ++ map id (newImages env acceptedFiles) /\
  map file (images (onDrop env acceptedFiles s))
  = map file (images s) ++ acceptedFiles.
Proof.
  intros Hready. unfold ids. rewrite (onDrop_images env acceptedFiles s Hready).
  rewrite recordLoop_ids, recordLoop_files, !map_app.
  unfold newImages. now rewrite newImagesFrom_files.
Qed.

(** X9.  An ingestion that gets to its loop appends: the records that
    were in the list keep their places, ids and files, and the new records
    follow in the order of the dropped files, one per file. *)
Theorem ingestion_appends_in_order :
  forall (env : Env) (acceptedFiles : list File) (s : State),
    images s <> [] \/ initializeModel env None = Fulfilled true ->
    let s' := onDrop env acceptedFiles s in
    ids s' = ids s ++ map id (newImages env acceptedFiles) /\
    map file (images s') = map file (images s) ++ acceptedFiles /\
    List.length (images s') = (List.length (images s) + List.length acceptedFiles)%nat.
Proof.
  intros env acceptedFiles s Hready s'.
  destruct (onDrop_ids_files env acceptedFiles s Hready) as [Hids Hfiles].
  subst s'. split; [exact Hids |]. split; [exact Hfiles |].
  rewrite <- (length_map file (images (onDrop env acceptedFiles s))).
  rewrite Hfiles, length_app, length_map.
  reflexivity.
Qed.

(** X10.  An ingestion that gets to its loop never takes a result away
    and never touches a record whose id it did not assign: every record of
    the list is found at its place with the same id and file, still
    segmented if it was, and unchanged altogether when its id is not one
    of the new ids. *)
Theorem ingestion_keeps_existing_records :
  forall (env : Env) (acceptedFiles : list File) (s : State) (p : nat) (rec : ImageFile),
    images s <> [] \/ initializeModel env None = Fulfilled true ->
    nth_error (images s) p = Some rec ->
    exists rec',
      nth_error (images (onDrop env acceptedFiles s)) p = Some rec' /\
      id rec' = id rec /\ file rec' = file rec /\
      (processedFile rec <> None -> processedFile rec' <> None) /\
      (~ In (id rec) (map id (newImages env acceptedFiles)) -> rec' = rec).
Proof.
  intros env acceptedFiles s p rec Hready Hnth.
  exists (recordLoop env 0 (newImages env acceptedFiles) rec).
  destruct (recordLoop_id_file env (newImages env acceptedFiles) 0 rec) as [Hid Hfile].
  split; [| split; [exact Hid | split; [exact Hfile | split]]].
  - rewrite (onDrop_images env acceptedFiles s Hready), nth_error_map.
    rewrite nth_error_app1 by (apply nth_error_Some; congruence).
    now rewrite Hnth.
  - apply recordLoop_keeps_result.
  - intros Hfresh. apply recordLoop_other.
    intros image Hin Heq. apply Hfresh. rewrite <- Heq. now apply in_map.
Qed.





(** ** Updates of the list in any order *)

Lemma setImages_ext (f g : list ImageFile -> list ImageFile) (s : State) :
  f (images s) = g (images s) -> setImages f s = setImages g s.
Proof. unfold setImages. now intros ->. Qed.

Lemma filter_map_commute {A : Type} (p : A -> bool) (g : A -> A) (l : list A) :
  (forall x, p (g x) = p x) -> filter p (map g l) = map g (filter p l).
Proof.
  intros Hp. induction l as [| x l IH]; [reflexivity |].
  cbn [map filter]. rewrite Hp. destruct (p x); cbn [map]; now rewrite IH.
Qed.

Lemma filter_attachResult (keep : Z -> bool) (imageId : Z) (r : File)
  (l : list ImageFile) :
  filter (fun img => keep (id img)) (attachResult imageId r l)
  = attachResult imageId r (filter (fun img => keep (id img)) l).
Proof.
  unfold attachResult. apply filter_map_commute.
  intros img. now destruct (id img =? imageId).
Qed.

Lemma attachResult_swap (i j : Z) (r1 r2 : File) (l : list ImageFile) :
  i <> j ->
  attachResult j r2 (attachResult i r1 l) = attachResult i r1 (attachResult j r2 l).
Proof.
  intros Hne. unfold attachResult. rewrite !map_map. apply map_ext.
  intros img.
  destruct (Z.eqb_spec (id img) i) as [Ei | Ei];
    destruct (Z.eqb_spec (id img) j) as [Ej | Ej]; cbn [id];
    try congruence;
    repeat match goal with
           | |- context [?a =? ?b] =>
               destruct (Z.eqb_spec a b); try congruence
           end.
Qed.

(** X12.  Updates of the image list do not depend on the order in which
    they arrive: deleting an id twice is deleting it once, two deletions
    commute, a deletion commutes with a completion (also of the same id),
    and two completions for different ids commute. *)
Theorem store_updates_commute :
  forall (s : State) (i j : Z) (r1 r2 : File),
    onDelete i (onDelete i s) = onDelete i s /\
    onDelete i (onDelete j s) = onDelete j (onDelete i s) /\
    applyUpdate (onDelete i s) (Completed j r1)
    = onDelete i (applyUpdate s (Completed j r1)) /\
    (i <> j ->
     applyUpdate (applyUpdate s (Completed i r1)) (Completed j r2)
     = applyUpdate (applyUpdate s (Completed j r2)) (Completed i r1)).
Proof.
  intros s i j r1 r2. unfold onDelete, applyUpdate, onDelete.
  split; [| split; [| split]].
  - apply (setImages_ext
             (fun l => filter (fun img => negb (id img =? i))
                         (filter (fun img => negb (id img =? i)) l))
             (filter (fun img => negb (id img =? i))) s).
    induction (images s) as [| img l IH]; [reflexivity |].
    cbn [filter]. destruct (negb (id img =? i)) eqn:E; cbn [filter];
      rewrite ?E, IH; reflexivity.
  - apply (setImages_ext
             (fun l => filter (fun img => negb (id img =? i))
                         (filter (fun img => negb (id img =? j)) l))
             (fun l => filter (fun img => negb (id img =? j))
                         (filter (fun img => negb (id img =? i)) l)) s).
    induction (images s) as [| img l IH]; [reflexivity |].
    cbn [filter].
    destruct (negb (id img =? j)) eqn:Ej; destruct (negb (id img =? i)) eqn:Ei;
      cbn [filter]; rewrite ?Ej, ?Ei, IH; reflexivity.
  - apply (setImages_ext
             (fun l => attachResult j r1 (filter (fun img => negb (id img =? i)) l))
             (fun l => filter (fun img => negb (id img =? i)) (attachResult j r1 l)) s).
    symmetry. apply (filter_attachResult (fun k => negb (k =? i))).
  - intros Hne.
    apply (setImages_ext
             (fun l => attachResult j r2 (attachResult i r1 l))
             (fun l => attachResult i r1 (attachResult j r2 l)) s).
    now apply attachResult_swap.
Qed.

End StoreInvariants.

(* ================================================================== *)
(** * The other ways into the list: paste, sample image, camera *)
(* ================================================================== *)

Section Surfaces.
Import JsNumber App.






End Surfaces.

(* ================================================================== *)
(** * The mobile redirect *)
(* ================================================================== *)

Section Redirect.
Import JsNumber App.

(** X15.  The mount effect redirects at most once.  On a page whose path
    contains [/mobile] it never redirects; the page it redirects to is such
    a page; and it redirects neither without touch support nor under a user
    agent that names CriOS, OPiOS or FxiOS, nor one that names neither iPad
    nor iPhone.  When it does not redirect it clears the loading flag and
    records what the library says about iOS. *)
Theorem mobile_redirect_at_most_once :
  forall (env : Env) (w : Window) (s : State),
    (isRedirectPage w = true -> mountEffect env w s = (w, mount env s)) /\
    mountEffect env (redirected w) s = (redirected w, mount env s) /\
    (ontouchend w = false -> mountEffect env w s = (w, mount env s)) /\
    (matchesWord (userAgent w) "CriOS" = true
     \/ matchesWord (userAgent w) "OPiOS" = true
     \/ matchesWord (userAgent w) "FxiOS" = true ->
     mountEffect env w s = (w, mount env s)) /\
    (matchesWord (userAgent w) "iPad" = false ->
     matchesWord (userAgent w) "iPhone" = false ->
     mountEffect env w s = (w, mount env s)) /\
    (forall w' s', mountEffect env w s = (w', s') ->
       w' = w /\ isLoading s' = false /\ isIOS s' = isIOSDevice (getModelInfo env)
       \/ w' = redirected w /\ s' = s).
Proof.
  intros env w s. unfold mountEffect, isMobileSafari. cbv zeta.
  split; [| split; [| split; [| split; [| split]]]].
  - intros ->. now rewrite andb_false_r.
  - change (isRedirectPage (redirected w)) with true. now rewrite andb_false_r.
  - intros ->. now rewrite andb_false_r.
  - intros [-> | [-> | ->]]; cbn [negb]; now rewrite ?andb_false_r.
  - intros -> ->. reflexivity.
  - intros w' s'.
    destruct (_ && negb (isRedirectPage w)); intros H; injection H as <- <-.
    + right. split; reflexivity.
    + left. repeat split.
Qed.

End Redirect.

(* ================================================================== *)
(** * The image grid *)
(* ================================================================== *)

Section Grid.
Import JsNumber.

Lemma lookup_after_save (st : Images.State) (saved : Z) (url : string) (imageId : Z) :
  Images.lookup (Images.processedImageUrls (Images.handleEditSave saved url st)) imageId
  = if saved =? imageId then Some url
    else Images.lookup (Images.processedImageUrls st) imageId.
Proof. reflexivity. Qed.

(** X16.  Saving an edit shows it on the tile of the edited image and on
    that tile only.  After [handleSave] of the modal that edits [im], the
    modal is closed, the tile of [im] shows and offers for download the
    exported URL, or still the segmented file when the exported URL is
    empty (no render had finished), and the tile of every image with
    another id is what it was. *)
Theorem saved_edit_is_shown_on_its_tile :
  forall (modal : EditModal.State) (st : Images.State) (im other : ImageFile)
         (pf : File),
    Images.editingImage st = Some im ->
    processedFile im = Some pf ->
    includes (fileType (file im)) "video" = false ->
    let st' := EditModal.handleSave Images.onSave Images.onClose modal st in
    let shown := match EditModal.exportUrl modal with
                 | EmptyString => Images.ObjectURL pf
                 | url => Images.Href url
                 end in
    Images.editingImage st' = None /\
    Images.tile st' im
    = Images.ImageSpot shown false
        (Some (Images.mkActions (id im) shown
                 ("werase-" ++ numberToString (id im) ++ ".png"))) /\
    (id other <> id im -> Images.tile st' other = Images.tile st other).
Proof.
  intros modal st im other pf Hediting Hpf Hvideo st' shown.
  assert (Hst : st' = Images.handleEditSave (id im) (EditModal.exportUrl modal) st).
  { unfold st', EditModal.handleSave, Images.onSave. rewrite Hediting.
    reflexivity. }
  split; [rewrite Hst; reflexivity |]. split.
  - unfold Images.tile. rewrite Hvideo, Hst, lookup_after_save, Z.eqb_refl.
    unfold Images.imageSpot. rewrite Hpf. unfold shown, Images.orElse.
    now destruct (EditModal.exportUrl modal).
  - intros Hother. unfold Images.tile. rewrite Hst, lookup_after_save.
    destruct (Z.eqb_spec (id im) (id other)); [congruence | reflexivity].
Qed.

Lemma onDrop_record (env : App.Env) (acceptedFiles : list File) (s : App.State)
  (j : nat) (f : File) :
  App.images s <> [] \/ App.initializeModel env None = App.Fulfilled true ->
  nth_error acceptedFiles j = Some f ->
  nth_error (App.images (App.onDrop env acceptedFiles s))
    (List.length (App.images s) + j)
  = Some (App.recordLoop env 0 (App.newImages env acceptedFiles)
            (mkImageFile (App.DateNow env j + Z.of_nat j) f None)).
Proof.
  intros Hready Hnth.
  rewrite (onDrop_images env acceptedFiles s Hready), nth_error_map.
  rewrite nth_error_app2 by lia.
  replace (List.length (App.images s) + j - List.length (App.images s))%nat
    with j by lia.
  unfold App.newImages.
  now rewrite (newImagesFrom_nth env acceptedFiles 0 j f Hnth).
Qed.

(** X17.  An image whose segmentation was rejected, or gave no result,
    stays on the grid as an unfinished tile: it shows the original file
    under the processing overlay and offers no delete, edit or download
    control, whatever edits have been saved. *)
Theorem unsegmented_image_offers_no_controls :
  forall (env : App.Env) (acceptedFiles : list File) (s : App.State)
         (st : Images.State) (j : nat) (f : File),
    App.images s <> [] \/ App.initializeModel env None = App.Fulfilled true ->
    App.monotoneClock env ->
    nth_error acceptedFiles j = Some f ->
    includes (fileType f) "video" = false ->
    (forall r rest, App.processImages env j [f] <> App.Fulfilled (Some (r :: rest))) ->
    exists rec,
      nth_error (App.images (App.onDrop env acceptedFiles s))
        (List.length (App.images s) + j) = Some rec /\
      Images.tile st rec = Images.ImageSpot (Images.ObjectURL f) true None.
Proof.
  intros env acceptedFiles s st j f Hready Hclock Hnth Hvideo Hfail.
  set (added := App.newImages env acceptedFiles).
  set (image := mkImageFile (App.DateNow env j + Z.of_nat j) f None).
  exists (App.recordLoop env 0 added image).
  split; [exact (onDrop_record env acceptedFiles s j f Hready Hnth) |].
  destruct (recordLoop_id_file env added 0 image) as [_ Hfile].
  pose proof (recordLoop_own env added 0 j image image
                (newImagesFrom_NoDup env acceptedFiles Hclock 0)
                (newImagesFrom_nth env acceptedFiles 0 j f Hnth) eq_refl) as Hown.
  cbn [Nat.add file processedFile image] in Hown, Hfile.
  assert (Hnone : processedFile (App.recordLoop env 0 added image) = None).
  { rewrite Hown.
    destruct (App.processImages env j [f]) as [[[| r rest] |] | e];
      try reflexivity.
    exfalso. now apply (Hfail r rest). }
  unfold Images.tile, Images.imageSpot. now rewrite Hfile, Hvideo, Hnone.
Qed.

End Grid.

(* ================================================================== *)
(** * The camera *)
(* ================================================================== *)

Section CameraProperties.
Import JsNumber.
Context {B : Browser} {M : MediaPlatform B}.

Lemma camera_error_step (st : Camera.State) (a : Camera.Action) :
  Camera.error st <> ""%string ->
  let st' := Camera.perform st a in
  Camera.error st' <> ""%string /\
  Camera.srcObject st' = Camera.srcObject st /\
  Camera.stopped st' = Camera.stopped st.
Proof.
  intros Herr.
  assert (Hunmounted : Camera.videoMounted st = false).
  { unfold Camera.videoMounted. now apply String.eqb_neq. }
  destruct a; cbn [Camera.perform]; cbv zeta.
  - unfold Camera.startCamera. rewrite Hunmounted.
    destruct (getUserMedia (Camera.facingMode st)); cbn; auto.
    repeat split. discriminate.
  - unfold Camera.stopCamera. rewrite Hunmounted. auto.
  - unfold Camera.switchCamera, Camera.stopCamera. rewrite Hunmounted.
    unfold Camera.startCamera, Camera.videoMounted. cbn [Camera.error].
    replace (Camera.error st =? "")%string with false
      by (symmetry; now apply String.eqb_neq).
    match goal with
    | |- context [getUserMedia ?mode] => destruct (getUserMedia mode)
    end; cbn; auto.
    repeat split. discriminate.
Qed.

(** X18.  A camera error is permanent.  A rejected [getUserMedia] sets the
    error message; from then on no start, stop or switch clears it, the
    stream of the video element and the stopped tracks stay as they are,
    and the capture button hands nothing to [onCapture]. *)
Theorem camera_error_is_permanent :
  forall (st : Camera.State) (actions : list Camera.Action),
    (forall e, getUserMedia (Camera.facingMode st) = App.Rejected e ->
       Camera.error (Camera.startCamera st) <> ""%string) /\
    (Camera.error st <> ""%string ->
     let st' := Camera.performAll actions st in
     Camera.error st' <> ""%string /\
     Camera.srcObject st' = Camera.srcObject st /\
     Camera.stopped st' = Camera.stopped st /\
     Camera.delivered st' = None).
Proof.
  intros st actions. split.
  - intros e Hrej. unfold Camera.startCamera. rewrite Hrej. cbn. discriminate.
  - revert st. induction actions as [| a rest IH]; intros st Herr.
    + cbn. repeat split; [exact Herr |].
      unfold Camera.delivered, Camera.captureImage, Camera.videoMounted.
      now replace (Camera.error st =? "")%string with false
        by (symmetry; now apply String.eqb_neq).
    + destruct (camera_error_step st a Herr) as (Herr' & Hsrc & Hstopped).
      specialize (IH (Camera.perform st a) Herr'). cbv zeta in IH |- *.
      change (Camera.performAll (a :: rest) st)
        with (Camera.performAll rest (Camera.perform st a)).
      destruct IH as (H1 & H2 & H3 & H4).
      rewrite H2, H3. repeat split; assumption.
Qed.

(** X19.  Switching cameras while a stream plays stops every track of
    that stream and asks for the other facing mode; the new stream plays
    if the request is granted, and otherwise the error is set. *)
Theorem switch_stops_previous_stream :
  forall (st : Camera.State) (stream : Stream),
    Camera.error st = ""%string ->
    Camera.srcObject st = Some stream ->
    let st' := Camera.switchCamera st in
    let mode := if Camera.isFrontCamera st then "environment"%string
                else "user"%string in
    Camera.isFrontCamera st' = negb (Camera.isFrontCamera st) /\
    Camera.stopped st' = Camera.stopped st ++ getTracks stream /\
    match getUserMedia mode with
    | App.Fulfilled next =>
        Camera.srcObject st' = Some next /\ Camera.error st' = ""%string
    | App.Rejected _ =>
        Camera.srcObject st' = Some stream /\ Camera.error st' <> ""%string
    end.
Proof.
  intros st stream Herr Hsrc st' mode.
  assert (Hstop : Camera.stopCamera st
                  = Camera.mkState (Camera.error st) (Camera.isFrontCamera st)
                      (Some stream) (Camera.stopped st ++ getTracks stream)
                      (Camera.console st)).
  { unfold Camera.stopCamera, Camera.videoMounted. now rewrite Herr, Hsrc. }
  subst st'. unfold Camera.switchCamera. cbv zeta. rewrite Hstop.
  unfold Camera.startCamera, Camera.videoMounted, Camera.facingMode.
  cbn [Camera.error Camera.isFrontCamera Camera.srcObject Camera.stopped
       Camera.console].
  rewrite Herr.
  replace (if negb (Camera.isFrontCamera st) then "user"%string
           else "environment"%string) with mode
    by (unfold mode; now destruct (Camera.isFrontCamera st)).
  destruct (getUserMedia mode); cbn; repeat split; auto. discriminate.
Qed.


End CameraProperties.

(* ================================================================== *)
(** * The further statements on concrete inputs *)
(* ================================================================== *)

Section FurtherInstances.
Import Examples.

(** The front camera of the raster is captured mirrored. *)
Example front_capture_is_mirrored :
  option_map (fun c => (Camera.surface c, Camera.scale c, Camera.captured c))
    (Camera.captureImage (M := Raster.media) cameraPlaying)
  = Some (Raster.mkImage 2 1 [(0, 0, 200, 255); (200, 0, 0, 255)], (1, 1),
          Some snapshotBlob).
Proof. reflexivity. Qed.

Lemma brightness_keeps_tone_order_witness :
  let data := [10; 128; 250; 200; 20; 30; 40; 255] in
  (nth 0 data 0 <= nth 4 data 0 ->
   nth 0 (EditModal.brightness 40 data) 0 <= nth 4 (EditModal.brightness 40 data) 0) /\
  nth 0 (EditModal.brightness 40 data) 0 <= nth 0 (EditModal.brightness 60 data) 0 /\
  (40 <= 50 -> nth 0 (EditModal.brightness 40 data) 0 <= nth 0 data 0) /\
  (50 <= 40 -> nth 0 data 0 <= nth 0 (EditModal.brightness 40 data) 0).
Proof.
  apply (brightness_keeps_tone_order 40 60 [10; 128; 250; 200; 20; 30; 40; 255] 0 4).
  - lia.
  - lia.
  - repeat constructor; lia.
  - cbn. lia.
  - cbn. lia.
  - cbn. lia.
  - cbn. lia.
Defined.

Lemma contrast_spreads_tones_witness :
  let data := [10; 128; 250; 200; 20; 30; 40; 255] in
  (nth 0 data 0 <= nth 2 data 0 ->
   nth 0 (EditModal.contrast 40 data) 0 <= nth 2 (EditModal.contrast 40 data) 0) /\
  (128 <= nth 0 data 0 ->
   nth 0 data 0 <= nth 0 (EditModal.contrast 40 data) 0
   <= nth 0 (EditModal.contrast 60 data) 0) /\
  (nth 0 data 0 <= 128 ->
   nth 0 (EditModal.contrast 60 data) 0 <= nth 0 (EditModal.contrast 40 data) 0
   <= nth 0 data 0) /\
  (40 = 0 -> nth 0 (EditModal.contrast 40 data) 0 = nth 0 data 0).
Proof.
  apply (contrast_spreads_tones 40 60 [10; 128; 250; 200; 20; 30; 40; 255] 0 2).
  - lia.
  - lia.
  - repeat constructor; lia.
  - cbn. lia.
  - cbn. lia.
  - cbn. lia.
  - cbn. lia.
Defined.

Lemma ingestion_appends_in_order_witness :
  let env := calm 1000 (fun _ => App.Fulfilled true) in
  let s' := App.onDrop env [photo; photoB] mounted in
  App.ids s' = App.ids mounted ++ map id (App.newImages env [photo; photoB]) /\
  map file (App.images s') = map file (App.images mounted) ++ [photo; photoB] /\
  List.length (App.images s')
  = (List.length (App.images mounted) + List.length [photo; photoB])%nat.
Proof.
  apply (ingestion_appends_in_order (calm 1000 (fun _ => App.Fulfilled true))
           [photo; photoB] mounted).
  right. reflexivity.
Defined.

Lemma ingestion_keeps_existing_records_witness :
  let env := calm 1000 (fun _ => App.Fulfilled true) in
  let s := App.onDrop env [photo] mounted in
  let rec := mkImageFile 1000 photo (Some foreground) in
  exists rec',
    nth_error (App.images (App.onDrop (calm 2000 (fun _ => App.Fulfilled true))
                             [photoB] s)) 0 = Some rec' /\
    id rec' = id rec /\ file rec' = file rec /\
    (processedFile rec <> None -> processedFile rec' <> None) /\
    (~ In (id rec)
         (map id (App.newImages (calm 2000 (fun _ => App.Fulfilled true)) [photoB])) ->
     rec' = rec).
Proof.
  apply (ingestion_keeps_existing_records (calm 2000 (fun _ => App.Fulfilled true))
           [photoB]
           (App.onDrop (calm 1000 (fun _ => App.Fulfilled true)) [photo] mounted)
           0 (mkImageFile 1000 photo (Some foreground))).
  - left. discriminate.
  - reflexivity.
Defined.



Lemma saved_edit_is_shown_on_its_tile_witness :
  let st' := EditModal.handleSave Images.onSave Images.onClose rendered editingCutout in
  Images.editingImage st' = None /\
  Images.tile st' cutout
  = Images.ImageSpot (Images.Href "data:image/png;base64,AAAA") false
      (Some (Images.mkActions 1000 (Images.Href "data:image/png;base64,AAAA")
               "werase-1000.png")) /\
  (id (mkImageFile 1001 photoB (Some foreground)) <> id cutout ->
   Images.tile st' (mkImageFile 1001 photoB (Some foreground))
   = Images.tile editingCutout (mkImageFile 1001 photoB (Some foreground))).
Proof.
  exact (saved_edit_is_shown_on_its_tile rendered editingCutout cutout
           (mkImageFile 1001 photoB (Some foreground)) foreground
           eq_refl eq_refl eq_refl).
Defined.

Lemma unsegmented_image_offers_no_controls_witness :
  exists rec,
    nth_error (App.images (App.onDrop secondCallRejected [photo; photoB; photoC] mounted))
      (List.length (App.images mounted) + 1) = Some rec /\
    Images.tile Images.initialState rec
    = Images.ImageSpot (Images.ObjectURL photoB) true None.
Proof.
  apply (unsegmented_image_offers_no_controls secondCallRejected
           [photo; photoB; photoC] mounted Images.initialState 1 photoB).
  - right. reflexivity.
  - intros i j _. cbn. lia.
  - reflexivity.
  - reflexivity.
  - intros r rest. cbn. discriminate.
Defined.

Lemma switch_stops_previous_stream_witness :
  let st' := Camera.switchCamera (M := Raster.media) cameraPlaying in
  Camera.isFrontCamera st' = false /\
  Camera.stopped st' = [7%nat] /\
  Camera.srcObject st' = Some (Raster.frontFrame, [7%nat]) /\
  Camera.error st' <> ""%string.
Proof.
  destruct (switch_stops_previous_stream (M := Raster.media) cameraPlaying
              (Raster.frontFrame, [7%nat]) eq_refl eq_refl)
    as (Hfacing & Hstopped & Hnext & Herror).
  repeat split; assumption.
Defined.


End FurtherInstances.
